(** * WorkerMessenger: the reply-listener registry and the message dispatch

    A shallow embedding of [src/libraries/WorkerMessenger.ts].

    - JavaScript values that the registry can hold in a slot are [JsValue]:
      [undefined] (a key that was never written), [null] (written by
      [deleteListenerRecords]) or an array of listener records.
    - Listener records are objects compared with [===], that is by
      identity: a record carries the identity [ref] it got when
      [addListener] created it.
    - Callbacks are foreign functions.  What a callback does to the
      messenger is a program [Prog] of calls to the messenger's public
      methods, interleaved with reads and writes of the callback's own
      closure state.
    - A failing statement of the library returns [Throw]; a callback that
      throws makes the dispatch end in [Raised], with the state reached;
      re-entrant dispatch is bounded by fuel and returns [OutOfFuel] when
      the bound is hit.
    - The receive handlers are [async] without an [await]: called from a
      callback, their body runs to its end before the callback goes on,
      and an exception inside rejects the promise they return instead of
      reaching the callback that called them.
    - The array of a topic is reached only through the registry: the
      handlers copy it into [listenersToRemove] and [listenersToCall]
      before anything is removed or called, so arrays are values here. *)

From Stdlib Require Import ZArith Lia.
From stdpp Require Import base option list gmap strings fin_maps.

Local Open Scope string_scope.
Local Open Scope list_scope.
Local Open Scope nat_scope.

(** ** Errors and results *)

(** [InvalidArgumentReason] is declared in [errors/InvalidArgumentError];
    the messenger only names its member [Empty]. *)
Inductive InvalidArgumentReason : Type :=
| Empty.

(** [Thrown] is a value that a callback throws. *)
Inductive Error : Type :=
| TypeError
| InvalidArgumentError (argument : string) (reason : InvalidArgumentReason)
| Thrown (value : string).

(** [Throw e]: a statement of the library itself raised [e].
    [Raised e a]: a callback threw [e] when the state was [a]. *)
Inductive Result (A : Type) : Type :=
| Ok (a : A)
| Throw (e : Error)
| OutOfFuel
| Raised (e : Error) (a : A).

Arguments Ok {A} a.
Arguments Throw {A} e.
Arguments OutOfFuel {A}.
Arguments Raised {A} e a.

#[global] Instance Result_ret : MRet Result := fun _ a => Ok a.

(** The steps of one method of the library, none of which calls a
    callback: the loops that call callbacks do not go through this bind,
    so the last case is for completeness. *)
#[global] Instance Result_bind : MBind Result := fun _ _ f r =>
  match r with
  | Ok a => f a
  | Throw e => Throw e
  | OutOfFuel => OutOfFuel
  | Raised e _ => Throw e
  end.

(** ** Topics *)

Inductive WorkerMessengerCommand : Type :=
| WorkerVersion
| Subscribe
| AmpSubscriptionState
| AmpSubscribe
| AmpUnsubscribe
| NotificationDisplayed
| NotificationClicked
| NotificationDismissed
| RedirectPage.

#[global] Instance WorkerMessengerCommand_eq_dec : EqDecision WorkerMessengerCommand.
Proof. solve_decision. Defined.

(** The string value of an enum member, [command.toString()]. *)
Definition toString (command : WorkerMessengerCommand) : string :=
  match command with
  | WorkerVersion => "GetWorkerVersion"
  | Subscribe => "Subscribe"
  | AmpSubscriptionState => "amp-web-push-subscription-state"
  | AmpSubscribe => "amp-web-push-subscribe"
  | AmpUnsubscribe => "amp-web-push-unsubscribe"
  | NotificationDisplayed => "notification.displayed"
  | NotificationClicked => "notification.clicked"
  | NotificationDismissed => "notification.dismissed"
  | RedirectPage => "command.redirect"
  end.

(** ** Payloads and messages *)

(** [Serializable | number | string | object | boolean]; [PUndefined] is
    the optional [payload?] left out.  The messenger never inspects a
    payload. *)
Inductive WorkerMessengerPayload : Type :=
| PUndefined
| PSerializable (serialized : string)
| PNumber (n : Z)
| PString (s : string)
| PObject (fields : list (string * string))
| PBoolean (b : bool).

Record WorkerMessengerMessage : Type := {
  command : WorkerMessengerCommand;
  payload : WorkerMessengerPayload
}.

(** ** Listener records *)

(** A callback is a function object; [Callback] is its identity. *)
Definition Callback : Type := nat.

Record WorkerMessengerReplyBufferRecord : Type := {
  ref : nat;
  callback : Callback;
  onceListenerOnly : bool
}.

(** [listenerRecord === targetRecord] *)
Definition strict_equal (a b : WorkerMessengerReplyBufferRecord) : bool :=
  Nat.eqb (ref a) (ref b).

(** ** The values of a registry slot *)

Inductive JsValue : Type :=
| JsUndefined
| JsNull
| JsArray (items : list WorkerMessengerReplyBufferRecord).

Definition truthy (v : JsValue) : bool :=
  match v with
  | JsUndefined | JsNull => false
  | JsArray _ => true
  end.

(** [a || b] *)
Definition js_or (a b : JsValue) : JsValue :=
  if truthy a then a else b.

(** [v.length] *)
Definition js_length (v : JsValue) : Result nat :=
  match v with
  | JsArray items => Ok (length items)
  | _ => Throw TypeError
  end.

(** [v.push(record)] *)
Definition js_push (v : JsValue) (record : WorkerMessengerReplyBufferRecord) : Result JsValue :=
  match v with
  | JsArray items => Ok (JsArray (items ++ [record]))
  | _ => Throw TypeError
  end.

(** [for (let x of v)]: the elements the loop visits *)
Definition js_iterate (v : JsValue) : Result (list WorkerMessengerReplyBufferRecord) :=
  match v with
  | JsArray items => Ok items
  | _ => Throw TypeError
  end.

(** [o[key]] on an object created by [{}] and written only under the
    topics' strings, none of which names a property that [{}] inherits:
    a key that was not written reads as [undefined]. *)
Definition js_get (o : gmap string JsValue) (key : string) : JsValue :=
  default JsUndefined (o !! key).

(** ** WorkerMessengerReplyBuffer *)

(** [allocated] counts the record objects created so far; it is the
    identity the next record gets. *)
Record WorkerMessengerReplyBuffer : Type := {
  replies : gmap string JsValue;
  allocated : nat
}.

(** [constructor()] *)
Definition newReplyBuffer : WorkerMessengerReplyBuffer :=
  {| replies := ∅; allocated := 0 |}.

Definition findListenersForMessage
    (command : WorkerMessengerCommand) (this : WorkerMessengerReplyBuffer) : JsValue :=
  js_or (js_get (replies this) (toString command)) (JsArray []).

Definition addListener
    (command : WorkerMessengerCommand) (callback : Callback) (onceListenerOnly : bool)
    (this : WorkerMessengerReplyBuffer) : Result WorkerMessengerReplyBuffer :=
  let record := {| ref := allocated this;
                   callback := callback;
                   onceListenerOnly := onceListenerOnly |} in
  len ← js_length (findListenersForMessage command this);
  if (0 <? len)%nat then
    pushed ← js_push (js_get (replies this) (toString command)) record;
    Ok {| replies := <[toString command := pushed]> (replies this);
          allocated := S (allocated this) |}
  else
    Ok {| replies := <[toString command := JsArray [record]]> (replies this);
          allocated := S (allocated this) |}.

Definition deleteListenerRecords
    (command : WorkerMessengerCommand) (this : WorkerMessengerReplyBuffer)
    : WorkerMessengerReplyBuffer :=
  {| replies := <[toString command := JsNull]> (replies this);
     allocated := allocated this |}.

Definition deleteAllListenerRecords (this : WorkerMessengerReplyBuffer)
    : WorkerMessengerReplyBuffer :=
  {| replies := ∅; allocated := allocated this |}.

(** The loop of [deleteListenerRecord]; [remaining] is
    [listenerRecordIndex + 1].  [splice(i, 1)] is [delete i]. *)
Fixpoint deleteLoop (remaining : nat) (targetRecord : WorkerMessengerReplyBufferRecord)
    (listenersForCommand : list WorkerMessengerReplyBufferRecord)
    : list WorkerMessengerReplyBufferRecord :=
  match remaining with
  | 0 => listenersForCommand
  | S listenerRecordIndex =>
      let spliced :=
        match listenersForCommand !! listenerRecordIndex with
        | Some listenerRecord =>
            if strict_equal listenerRecord targetRecord
            then delete listenerRecordIndex listenersForCommand
            else listenersForCommand
        | None => listenersForCommand
        end in
      deleteLoop listenerRecordIndex targetRecord spliced
  end.

Definition deleteListenerRecord
    (command : WorkerMessengerCommand) (targetRecord : WorkerMessengerReplyBufferRecord)
    (this : WorkerMessengerReplyBuffer) : Result WorkerMessengerReplyBuffer :=
  let listenersForCommand := js_get (replies this) (toString command) in
  len ← js_length listenersForCommand;
  items ← js_iterate listenersForCommand;
  Ok {| replies := <[toString command := JsArray (deleteLoop len targetRecord items)]>
                     (replies this);
        allocated := allocated this |}.

(** ** The environment of the messenger *)

(** Modelled from the spec: [WindowEnvironmentKind] is declared in
    [models/WindowEnvironmentKind], which is not part of the sources at
    hand.  The specification's role is "either worker or page"; the
    messenger only ever compares the probe's answer with [ServiceWorker]. *)
Inductive WindowEnvironmentKind : Type :=
| ServiceWorker
| Page.

#[global] Instance WindowEnvironmentKind_eq_dec : EqDecision WindowEnvironmentKind.
Proof. solve_decision. Defined.

(** Modelled from the spec: [ServiceWorkerActiveState] is declared in
    [managers/ServiceWorkerManager], which is not part of the sources at
    hand.  The context's activation state is "one of: not-active, WorkerA,
    or WorkerB (or equivalent tombstoned/unknown state)". *)
Inductive ServiceWorkerActiveState : Type :=
| WorkerA
| WorkerB
| NotActive
| UnknownState.

#[global] Instance ServiceWorkerActiveState_eq_dec : EqDecision ServiceWorkerActiveState.
Proof. solve_decision. Defined.

Record ServiceWorkerObject : Type := { scriptURL : string }.

Record WindowClient : Type := { url : string }.

(** What one check of the readiness gate sees: [self.registration.active]
    and the answer of [context.serviceWorkerManager.getActiveState()]. *)
Record Observation : Type := {
  active : option ServiceWorkerObject;
  workerState : ServiceWorkerActiveState
}.

(** [!!x] for an object or [null] *)
Definition not_not {A : Type} (x : option A) : bool :=
  match x with
  | Some _ => true
  | None => false
  end.

(** The value the promise of [isWorkerControllingPage()] resolves with. *)
Definition isWorkerControllingPage (env : WindowEnvironmentKind) (seen : Observation) : bool :=
  if decide (env = ServiceWorker) then
    not_not (active seen)
  else
    bool_decide (workerState seen = WorkerA) || bool_decide (workerState seen = WorkerB).

(** The state of the promise an [async] method returned. *)
Inductive Promise : Type :=
| Fulfilled
| Rejected (e : Error)
| Pending.

(** [waitUntilWorkerControlsPage()]: [now] is what the first check sees,
    [events] what the check sees at each later 'activate' (worker) or
    'controllerchange' (page) event. *)
Definition waitUntilWorkerControlsPage
    (env : WindowEnvironmentKind) (now : Observation) (events : list Observation) : Promise :=
  if isWorkerControllingPage env now then Fulfilled
  else if existsb (isWorkerControllingPage env) events then Fulfilled
  else Pending.

Inductive Recipient : Type :=
| ToWindowClient (client : WindowClient)
| ToController.

(** What a call of [broadcast] or [unicast] did: the state of the promise
    it returned, the [postMessage] calls in order, whether the body went
    through an [await], and the lines given to [log.debug]. *)
Record Sending : Type := {
  promise : Promise;
  posted : list (Recipient * WorkerMessengerMessage);
  suspended : bool;
  debugged : list string
}.

Definition broadcast
    (env : WindowEnvironmentKind) (matchAll : list WindowClient)
    (command : WorkerMessengerCommand) (payload : WorkerMessengerPayload) : Sending :=
  if decide (env ≠ ServiceWorker) then
    {| promise := Fulfilled; posted := []; suspended := false; debugged := [] |}
  else
    {| promise := Fulfilled;
       posted := (fun client =>
                    (ToWindowClient client, {| command := command; payload := payload |}))
                 <$> matchAll;
       suspended := true;
       debugged := (fun client =>
                      "[Worker Messenger] [SW -> Page] Broadcasting '" +:+ toString command
                      +:+ "' to window client " +:+ url client +:+ ".")
                   <$> matchAll |}.

(** [controller] is [navigator.serviceWorker.controller] when the page
    posts: the readiness gate does not read it. *)
Definition unicast
    (env : WindowEnvironmentKind) (first now : Observation) (events : list Observation)
    (controller : option ServiceWorkerObject)
    (command : WorkerMessengerCommand) (payload : WorkerMessengerPayload)
    (windowClient : option WindowClient) : Sending :=
  if decide (env = ServiceWorker) then
    match windowClient with
    | None =>
        {| promise := Rejected (InvalidArgumentError "windowClient" Empty);
           posted := []; suspended := false; debugged := [] |}
    | Some client =>
        {| promise := Fulfilled;
           posted := [(ToWindowClient client, {| command := command; payload := payload |})];
           suspended := false;
           debugged := ["[Worker Messenger] [SW -> Page] Unicasting '" +:+ toString command
                        +:+ "' to window client " +:+ url client +:+ "."] |}
    end
  else
    let waiting :=
      if isWorkerControllingPage env first then []
      else ["[Worker Messenger] The page is not controlled by the service worker yet. Waiting..."] in
    match waitUntilWorkerControlsPage env now events with
    | Fulfilled =>
        let unicasting :=
          waiting ++ ["[Worker Messenger] [Page -> SW] Unicasting '" +:+ toString command
                      +:+ "' to service worker."] in
        match controller with
        | Some _ =>
            {| promise := Fulfilled;
               posted := [(ToController, {| command := command; payload := payload |})];
               suspended := true;
               debugged := unicasting |}
        | None =>
            {| promise := Rejected TypeError;
               posted := []; suspended := true; debugged := unicasting |}
        end
    | unsettled =>
        {| promise := unsettled; posted := []; suspended := true; debugged := waiting |}
    end.

(** ** Listening *)

(** An [addEventListener('message', ...)] call: [WorkerHook] is
    [self.addEventListener] with [onWorkerMessageReceivedFromPage],
    [PageHook] is [navigator.serviceWorker.addEventListener] with
    [onPageMessageReceivedFromServiceWorker]. *)
Inductive Hook : Type :=
| WorkerHook
| PageHook.

(** What a call of [listen] led to: the state of the work it started, the
    hooks installed in order, whether they were installed after an
    [await] (and so after [listen] returned), and the lines given to
    [log.debug]. *)
Record Listening : Type := {
  outcome : Promise;
  hooks : list Hook;
  deferred : bool;
  logged : list string
}.

(** [!x] for an optional boolean argument *)
Definition not_flag (x : option bool) : bool :=
  match x with
  | Some true => false
  | Some false | None => true
  end.

(** [origin] is [location.origin]. *)
Definition listenForPage
    (env : WindowEnvironmentKind) (origin : string)
    (first now : Observation) (events : list Observation)
    (listenIfPageUncontrolled : option bool) : Listening :=
  let listening :=
    "(" +:+ origin +:+ ") [Worker Messenger] Page is now listening for messages." in
  if not_flag listenIfPageUncontrolled then
    let waiting :=
      if isWorkerControllingPage env first then []
      else ["(" +:+ origin +:+ ") [Worker Messenger] The page is not controlled by the service worker yet. Waiting..."] in
    match waitUntilWorkerControlsPage env now events with
    | Fulfilled =>
        {| outcome := Fulfilled;
           hooks := [PageHook];
           deferred := true;
           logged := waiting ++
                     ["(" +:+ origin +:+ ") [Worker Messenger] The page is now controlled by the service worker.";
                      listening] |}
    | unsettled =>
        {| outcome := unsettled; hooks := []; deferred := true; logged := waiting |}
    end
  else
    {| outcome := Fulfilled; hooks := [PageHook]; deferred := false; logged := [listening] |}.

(** [supportsServiceWorkers] is the answer of
    [Environment.supportsServiceWorkers()]. *)
Definition listen
    (supportsServiceWorkers : bool)
    (env : WindowEnvironmentKind) (origin : string)
    (first now : Observation) (events : list Observation)
    (listenIfPageUncontrolled : option bool) : Listening :=
  if negb supportsServiceWorkers then
    {| outcome := Fulfilled; hooks := []; deferred := false; logged := [] |}
  else if decide (env = ServiceWorker) then
    {| outcome := Fulfilled;
       hooks := [WorkerHook];
       deferred := false;
       logged := ["[Worker Messenger] Service worker is now listening for messages."] |}
  else
    listenForPage env origin first now events listenIfPageUncontrolled.

(** ** The messenger and its callbacks *)

(** A call a callback can make on the messenger it closes over.  The two
    receive handlers are public methods, so a callback can re-enter the
    dispatch. *)
Inductive Call : Type :=
| CallOn (command : WorkerMessengerCommand) (callback : Callback)
| CallOnce (command : WorkerMessengerCommand) (callback : Callback)
| CallOff (command : option WorkerMessengerCommand)
| CallOnWorkerMessageReceivedFromPage (data : WorkerMessengerMessage)
| CallOnPageMessageReceivedFromServiceWorker (data : WorkerMessengerMessage).

(** The body of a callback, as far as the messenger can tell: its calls
    on the messenger, its own state of type [W], and [throw]. *)
Inductive Prog (W : Type) : Type :=
| Return
| Do (call : Call) (next : Prog W)
| Get (next : W -> Prog W)
| Put (w : W) (next : Prog W)
| Raise (e : Error).

Arguments Return {W}.
Arguments Raise {W} e.
Arguments Do {W} call next.
Arguments Get {W} next.
Arguments Put {W} w next.

(** One [listenerRecord.callback.apply(null, [data.payload])].  [depth] is
    0 for a dispatch the platform started and one more than the
    invocation that called the handler otherwise. *)
Record Invocation : Type := {
  depth : nat;
  listener : WorkerMessengerReplyBufferRecord;
  argument : WorkerMessengerPayload
}.

(** The messenger's registry ([this.replies]), the state of the callbacks'
    closures, and two logs: the callback invocations and the lines given
    to [log.debug]. *)
Record WorkerMessenger (W : Type) : Type := {
  messenger_replies : WorkerMessengerReplyBuffer;
  closure : W;
  invocations : list Invocation;
  console : list string
}.

Arguments messenger_replies {W} _.
Arguments closure {W} _.
Arguments invocations {W} _.
Arguments console {W} _.

Section Messenger.
Context {W : Type}.

(** [new WorkerMessenger(context)] *)
Definition newWorkerMessenger (w : W) : WorkerMessenger W :=
  {| messenger_replies := newReplyBuffer; closure := w; invocations := []; console := [] |}.

Definition set_replies (b : WorkerMessengerReplyBuffer) (this : WorkerMessenger W)
    : WorkerMessenger W :=
  {| messenger_replies := b; closure := closure this;
     invocations := invocations this; console := console this |}.

Definition set_closure (w : W) (this : WorkerMessenger W) : WorkerMessenger W :=
  {| messenger_replies := messenger_replies this; closure := w;
     invocations := invocations this; console := console this |}.

Definition log_debug (line : string) (this : WorkerMessenger W) : WorkerMessenger W :=
  {| messenger_replies := messenger_replies this; closure := closure this;
     invocations := invocations this; console := console this ++ [line] |}.

Definition record_invocation (i : Invocation) (this : WorkerMessenger W) : WorkerMessenger W :=
  {| messenger_replies := messenger_replies this; closure := closure this;
     invocations := invocations this ++ [i]; console := console this |}.

Definition on (command : WorkerMessengerCommand) (callback : Callback)
    (this : WorkerMessenger W) : Result (WorkerMessenger W) :=
  b ← addListener command callback false (messenger_replies this);
  Ok (set_replies b this).

Definition once (command : WorkerMessengerCommand) (callback : Callback)
    (this : WorkerMessenger W) : Result (WorkerMessenger W) :=
  b ← addListener command callback true (messenger_replies this);
  Ok (set_replies b this).

Definition off (command : option WorkerMessengerCommand) (this : WorkerMessenger W)
    : WorkerMessenger W :=
  match command with
  | Some command => set_replies (deleteListenerRecords command (messenger_replies this)) this
  | None => set_replies (deleteAllListenerRecords (messenger_replies this)) this
  end.

(** The first loop of a receive handler. *)
Fixpoint collect (listenerRecords listenersToRemove listenersToCall
                  : list WorkerMessengerReplyBufferRecord)
    : list WorkerMessengerReplyBufferRecord * list WorkerMessengerReplyBufferRecord :=
  match listenerRecords with
  | [] => (listenersToRemove, listenersToCall)
  | listenerRecord :: rest =>
      let listenersToRemove :=
        if onceListenerOnly listenerRecord
        then listenersToRemove ++ [listenerRecord]
        else listenersToRemove in
      collect rest listenersToRemove (listenersToCall ++ [listenerRecord])
  end.

(** The second loop: [backwards] is [listenersToRemove] read from its
    last index down to 0. *)
Fixpoint removeLoop (command : WorkerMessengerCommand)
    (backwards : list WorkerMessengerReplyBufferRecord)
    (b : WorkerMessengerReplyBuffer) : Result WorkerMessengerReplyBuffer :=
  match backwards with
  | [] => Ok b
  | listenerRecord :: rest =>
      b ← deleteListenerRecord command listenerRecord b;
      removeLoop command rest b
  end.

(** What the caller of an [async] method sees when it does not await the
    promise: a rejection of the promise is not an exception of the
    caller.  (A [Throw] of a receive handler never happens, see
    [onWorkerMessageReceivedFromPage_no_throw].) *)
Definition unawaited (r : Result (WorkerMessenger W)) : Result (WorkerMessenger W) :=
  match r with
  | Raised _ this => Ok this
  | settled => settled
  end.

Section Handlers.
(** How the call of a callback at a depth, with a payload, runs. *)
Variable apply : nat -> Callback -> WorkerMessengerPayload ->
                 WorkerMessenger W -> Result (WorkerMessenger W).

(** The third loop, called at depth [d]. *)
Fixpoint callLoop (d : nat) (listenersToCall : list WorkerMessengerReplyBufferRecord)
    (payload : WorkerMessengerPayload) (this : WorkerMessenger W)
    : Result (WorkerMessenger W) :=
  match listenersToCall with
  | [] => Ok this
  | listenerRecord :: rest =>
      let i := {| depth := d; listener := listenerRecord; argument := payload |} in
      match apply (S d) (callback listenerRecord) payload (record_invocation i this) with
      | Ok this => callLoop d rest payload this
      | stopped => stopped
      end
  end.

Definition onWorkerMessageReceivedFromPage (d : nat) (data : WorkerMessengerMessage)
    (this : WorkerMessenger W) : Result (WorkerMessenger W) :=
  let listenerRecords := findListenersForMessage (command data) (messenger_replies this) in
  let this := log_debug "[Worker Messenger] Service worker received message:" this in
  visited ← js_iterate listenerRecords;
  let '(listenersToRemove, listenersToCall) := collect visited [] [] in
  b ← removeLoop (command data) (reverse listenersToRemove) (messenger_replies this);
  callLoop d listenersToCall (payload data) (set_replies b this).

Definition onPageMessageReceivedFromServiceWorker (d : nat) (data : WorkerMessengerMessage)
    (this : WorkerMessenger W) : Result (WorkerMessenger W) :=
  let listenerRecords := findListenersForMessage (command data) (messenger_replies this) in
  let this := log_debug "[Worker Messenger] Page received message:" this in
  visited ← js_iterate listenerRecords;
  let '(listenersToRemove, listenersToCall) := collect visited [] [] in
  b ← removeLoop (command data) (reverse listenersToRemove) (messenger_replies this);
  callLoop d listenersToCall (payload data) (set_replies b this).

(** One call of a callback's body, made at depth [d].  The receive
    handlers are [async]: the callback that calls one gets a promise and
    goes on, also when a callback called by that handler threw. *)
Definition perform (d : nat) (call : Call) (this : WorkerMessenger W)
    : Result (WorkerMessenger W) :=
  match call with
  | CallOn command callback => on command callback this
  | CallOnce command callback => once command callback this
  | CallOff command => Ok (off command this)
  | CallOnWorkerMessageReceivedFromPage data =>
      unawaited (onWorkerMessageReceivedFromPage d data this)
  | CallOnPageMessageReceivedFromServiceWorker data =>
      unawaited (onPageMessageReceivedFromServiceWorker d data this)
  end.

Fixpoint interp (d : nat) (body : Prog W) (this : WorkerMessenger W)
    : Result (WorkerMessenger W) :=
  match body with
  | Return => Ok this
  | Do call next =>
      match perform d call this with
      | Ok this => interp d next this
      | stopped => stopped
      end
  | Get next => interp d (next (closure this)) this
  | Put w next => interp d next (set_closure w this)
  | Raise e => Raised e this
  end.
End Handlers.

(** The code of the callbacks. *)
Variable body : Callback -> WorkerMessengerPayload -> Prog W.

(** Calling a callback; [fuel] bounds how deep dispatches nest. *)
Fixpoint applyCallback (fuel : nat) (d : nat) (callback : Callback)
    (payload : WorkerMessengerPayload) (this : WorkerMessenger W)
    : Result (WorkerMessenger W) :=
  match fuel with
  | 0 => OutOfFuel
  | S fuel => interp (applyCallback fuel) d (body callback payload) this
  end.

(** A callback's body that never calls a receive handler and does not
    throw: it only registers and unregisters listeners and reads and
    writes its own state. *)
Inductive quiet : Prog W -> Prop :=
| quiet_Return : quiet Return
| quiet_on command callback next :
    quiet next -> quiet (Do (CallOn command callback) next)
| quiet_once command callback next :
    quiet next -> quiet (Do (CallOnce command callback) next)
| quiet_off command next :
    quiet next -> quiet (Do (CallOff command) next)
| quiet_Get next :
    (forall w, quiet (next w)) -> quiet (Get next)
| quiet_Put w next :
    quiet next -> quiet (Put w next).

(** [on(command, cb)] for each [cb] of a list, in order. *)
Fixpoint onEach (command : WorkerMessengerCommand) (callbacks : list Callback)
    (this : WorkerMessenger W) : Result (WorkerMessenger W) :=
  match callbacks with
  | [] => Ok this
  | callback :: rest =>
      this ← on command callback this;
      onEach command rest this
  end.
End Messenger.

(** ** Vocabulary of the properties *)

(** The records of a topic: those of its array, none for [undefined] and
    for [null]. *)
Definition listenersOf (command : WorkerMessengerCommand) (b : WorkerMessengerReplyBuffer)
    : list WorkerMessengerReplyBufferRecord :=
  match js_get (replies b) (toString command) with
  | JsArray items => items
  | _ => []
  end.

Definition other_than (targetRecord x : WorkerMessengerReplyBufferRecord) : Prop :=
  ref x ≠ ref targetRecord.

#[global] Instance other_than_dec targetRecord x : Decision (other_than targetRecord x).
Proof. unfold other_than. apply _. Defined.

Definition once_only (x : WorkerMessengerReplyBufferRecord) : Prop :=
  onceListenerOnly x = true.

#[global] Instance once_only_dec x : Decision (once_only x).
Proof. unfold once_only. apply _. Defined.

(** What the calls [deleteListenerRecord(command, r)], for [r] in
    [targets] in turn, leave of an array. *)
Definition removeAll (targets l : list WorkerMessengerReplyBufferRecord)
    : list WorkerMessengerReplyBufferRecord :=
  foldl (fun acc r => filter (other_than r) acc) l targets.

(** The registry a receive handler leaves when its second loop is done. *)
Definition pruned (command : WorkerMessengerCommand) (b : WorkerMessengerReplyBuffer)
    : WorkerMessengerReplyBuffer :=
  match js_get (replies b) (toString command) with
  | JsArray l =>
      {| replies := <[toString command :=
                        JsArray (removeAll (reverse (filter once_only l)) l)]> (replies b);
         allocated := allocated b |}
  | _ => b
  end.

(** The record with identity [r] is in some topic's array. *)
Definition registered (r : nat) (b : WorkerMessengerReplyBuffer) : Prop :=
  exists k l x, replies b !! k = Some (JsArray l) /\ x ∈ l /\ ref x = r.

(** Every record in the registry was created by [addListener]. *)
Definition bounded (b : WorkerMessengerReplyBuffer) : Prop :=
  forall k l x, replies b !! k = Some (JsArray l) -> x ∈ l -> ref x < allocated b.

(** No two places of the registry hold records of the same identity. *)
Definition distinct (b : WorkerMessengerReplyBuffer) : Prop :=
  (forall k l, replies b !! k = Some (JsArray l) -> NoDup (ref <$> l)) /\
  (forall k1 k2 l1 l2 x y,
     k1 ≠ k2 ->
     replies b !! k1 = Some (JsArray l1) -> replies b !! k2 = Some (JsArray l2) ->
     x ∈ l1 -> y ∈ l2 -> ref x ≠ ref y).

(** The registries that [addListener] and the delete methods build. *)
Definition well_formed (b : WorkerMessengerReplyBuffer) : Prop :=
  bounded b /\ distinct b.

Definition invocation_of (r : nat) (i : Invocation) : Prop :=
  ref (listener i) = r.

#[global] Instance invocation_of_dec r i : Decision (invocation_of r i).
Proof. unfold invocation_of. apply _. Defined.

(** How many times the record with identity [r] had its callback called. *)
Definition timesInvoked {W : Type} (r : nat) (this : WorkerMessenger W) : nat :=
  length (filter (invocation_of r) (invocations this)).

Definition at_depth (d : nat) (i : Invocation) : Prop :=
  depth i = d.

#[global] Instance at_depth_dec d i : Decision (at_depth d i).
Proof. unfold at_depth. apply _. Defined.

(** The invocations the third loop makes itself, at depth [d]. *)
Definition calls (d : nat) (payload : WorkerMessengerPayload)
    (l : list WorkerMessengerReplyBufferRecord) : list Invocation :=
  (fun x => {| depth := d; listener := x; argument := payload |}) <$> l.

(** The records [onEach command callbacks] creates, the first with
    identity [start]. *)
Definition persistentRecords (start : nat) (callbacks : list Callback)
    : list WorkerMessengerReplyBufferRecord :=
  imap (fun i cb => {| ref := start + i; callback := cb; onceListenerOnly := false |})
       callbacks.

(** The messenger when the third loop of a receive handler starts:
    [line] is logged and the once-only records are gone. *)
Definition dispatched {W : Type} (line : string) (command : WorkerMessengerCommand)
    (this : WorkerMessenger W) : WorkerMessenger W :=
  set_replies (pruned command (messenger_replies this)) (log_debug line this).

Definition workerLine : string := "[Worker Messenger] Service worker received message:".
Definition pageLine : string := "[Worker Messenger] Page received message:".

(** No record of [targets] has the identity of [x]. *)
Definition spared (targets : list WorkerMessengerReplyBufferRecord)
    (x : WorkerMessengerReplyBufferRecord) : Prop :=
  ref x ∉ (ref <$> targets).

#[global] Instance spared_dec targets x : Decision (spared targets x).
Proof. unfold spared. apply _. Defined.

(** The record with identity [r] was created and is in no topic's array. *)
Definition retired (r : nat) (b : WorkerMessengerReplyBuffer) : Prop :=
  r < allocated b /\ ~ registered r b.

(** From [this] to [this'] the registry stays well formed, and a retired
    record stays retired and is not invoked. *)
Definition keeps_retired {W : Type} (this this' : WorkerMessenger W) : Prop :=
  well_formed (messenger_replies this') /\
  forall r, retired r (messenger_replies this) ->
            retired r (messenger_replies this') /\ timesInvoked r this' = timesInvoked r this.

Definition has_ref (r : nat) (x : WorkerMessengerReplyBufferRecord) : Prop :=
  ref x = r.

#[global] Instance has_ref_dec r x : Decision (has_ref r x).
Proof. unfold has_ref. apply _. Defined.

(** From [this] to [this'] the log of invocations grew, by invocations at
    depth [d] or deeper. *)
Definition extends_from {W : Type} (d : nat) (this this' : WorkerMessenger W) : Prop :=
  exists more, invocations this' = invocations this ++ more /\
               Forall (fun i => d <= depth i) more.

(** Two messengers with the same registry, the same closure state and the
    same log of invocations: they may differ in the lines logged. *)
Definition same_but_console {W : Type} (s1 s2 : WorkerMessenger W) : Prop :=
  messenger_replies s1 = messenger_replies s2 /\
  closure s1 = closure s2 /\
  invocations s1 = invocations s2.

(** Two results of the same kind, with related values. *)
Definition alike {A : Type} (R : A -> A -> Prop) (r1 r2 : Result A) : Prop :=
  match r1, r2 with
  | Ok a1, Ok a2 => R a1 a2
  | Throw e1, Throw e2 => e1 = e2
  | OutOfFuel, OutOfFuel => True
  | Raised e1 a1, Raised e2 a2 => e1 = e2 /\ R a1 a2
  | _, _ => False
  end.

(** The state a run ends in, whether it returned or a callback threw. *)
Definition ends {A : Type} (r : Result A) (a : A) : Prop :=
  r = Ok a \/ exists e, r = Raised e a.

(** A receive handler, given how callbacks are called. *)
Definition Handler (W : Type) : Type :=
  (nat -> Callback -> WorkerMessengerPayload -> WorkerMessenger W -> Result (WorkerMessenger W)) ->
  nat -> WorkerMessengerMessage -> WorkerMessenger W -> Result (WorkerMessenger W).

(** Whatever the callbacks do, a dispatch that returns has itself invoked
    (at its own depth [d]) the records its topic had when it started, in
    their order, with the payload; every other invocation made meanwhile
    is deeper, made by a dispatch that a callback started. *)
Definition invokes_snapshot {W : Type}
    (body : Callback -> WorkerMessengerPayload -> Prog W) (handler : Handler W) : Prop :=
  forall fuel d data this this',
    handler (applyCallback body fuel) d data this = Ok this' ->
    exists more,
      invocations this' = invocations this ++ more /\
      Forall (fun i => d <= depth i) more /\
      filter (at_depth d) more =
        calls d (payload data) (listenersOf (command data) (messenger_replies this)).

(** When the callbacks of the records its topic has do not call a receive
    handler, a dispatch returns, and has invoked exactly those records. *)
Definition returns_when_quiet {W : Type}
    (body : Callback -> WorkerMessengerPayload -> Prog W) (handler : Handler W) : Prop :=
  forall fuel d data this,
    (forall x, x ∈ listenersOf (command data) (messenger_replies this) ->
               quiet (body (callback x) (payload data))) ->
    exists this',
      handler (applyCallback body (S fuel)) d data this = Ok this' /\
      invocations this' =
        invocations this ++
          calls d (payload data) (listenersOf (command data) (messenger_replies this)).

(** A record that a dispatch leaves in the registry. *)
Definition persistent (x : WorkerMessengerReplyBufferRecord) : Prop :=
  onceListenerOnly x = false.

#[global] Instance persistent_dec x : Decision (persistent x).
Proof. unfold persistent. apply _. Defined.

(** An observation at which the readiness gate opens. *)
Definition controlling (env : WindowEnvironmentKind) (seen : Observation) : Prop :=
  isWorkerControllingPage env seen = true.

(** A callback's body that does not throw. *)
Inductive calm {W : Type} : Prog W -> Prop :=
| calm_Return : calm Return
| calm_Do call next : calm next -> calm (Do call next)
| calm_Get next : (forall w, calm (next w)) -> calm (Get next)
| calm_Put w next : calm next -> calm (Put w next).

(** A callback's body that makes no call on the messenger and does not
    throw: it only reads and writes its own state. *)
Inductive detached {W : Type} : Prog W -> Prop :=
| detached_Return : detached Return
| detached_Get next : (forall w, detached (next w)) -> detached (Get next)
| detached_Put w next : detached next -> detached (Put w next).

(** ** Example callbacks and messengers *)

(** Callback 1 unregisters the listeners of [NotificationDisplayed];
    callback 2, called with the number 1, dispatches
    [NotificationDisplayed] again, with the number 0; the other callbacks
    leave the messenger alone. *)
Definition exampleBody (cb : Callback) (p : WorkerMessengerPayload) : Prog unit :=
  match cb, p with
  | 1, _ => Do (CallOff (Some NotificationDisplayed)) Return
  | 2, PNumber 1 =>
      Do (CallOnWorkerMessageReceivedFromPage
            {| command := NotificationDisplayed; payload := PNumber 0 |}) Return
  | _, _ => Return
  end.

Definition orElse {A : Type} (r : Result A) (a : A) : A :=
  match r with
  | Ok x => x
  | _ => a
  end.

(** [on(NotificationDisplayed, 2)] on a new messenger. *)
Definition exampleRedispatching : WorkerMessenger unit :=
  orElse (on NotificationDisplayed 2 (newWorkerMessenger tt)) (newWorkerMessenger tt).

(** ... followed by [once(NotificationDisplayed, 0)] ... *)
Definition exampleOnce : WorkerMessenger unit :=
  orElse (once NotificationDisplayed 0 exampleRedispatching) (newWorkerMessenger tt).

Definition exampleMessage : WorkerMessengerMessage :=
  {| command := NotificationDisplayed; payload := PNumber 1 |}.

(** ... and by the dispatch of [NotificationDisplayed] with the number 1. *)
Definition exampleDispatched : WorkerMessenger unit :=
  orElse (onWorkerMessageReceivedFromPage (applyCallback exampleBody 3) 0
            exampleMessage exampleOnce)
         (newWorkerMessenger tt).

(** [on(NotificationDisplayed, 1)], [on(NotificationDisplayed, 0)] and
    [on(Subscribe, 0)] on a new messenger. *)
Definition exampleUnregistering : WorkerMessenger unit :=
  orElse (this ← on NotificationDisplayed 1 (newWorkerMessenger tt);
          this ← on NotificationDisplayed 0 this;
          on Subscribe 0 this)
         (newWorkerMessenger tt).

(** A registry whose [Subscribe] array holds the record of identity 0
    three times, twice in a row, around the record of identity 1. *)
Definition exampleRepeated : WorkerMessengerReplyBuffer :=
  {| replies :=
       {[ toString Subscribe :=
            JsArray [ {| ref := 0; callback := 7; onceListenerOnly := true |};
                      {| ref := 0; callback := 7; onceListenerOnly := true |};
                      {| ref := 1; callback := 8; onceListenerOnly := false |};
                      {| ref := 0; callback := 7; onceListenerOnly := true |} ] ]};
     allocated := 2 |}.

(** [once(NotificationDisplayed, 0)] and [on(NotificationDisplayed, 3)] on
    a new messenger. *)
Definition exampleScenario : WorkerMessenger unit :=
  orElse (this ← once NotificationDisplayed 0 (newWorkerMessenger tt);
          on NotificationDisplayed 3 this)
         (newWorkerMessenger tt).

(** Callback 5 throws; the other callbacks leave the messenger alone. *)
Definition exampleThrowingBody (cb : Callback) (p : WorkerMessengerPayload) : Prog unit :=
  match cb with
  | 5 => Raise (Thrown "boom")
  | _ => Return
  end.

(** [once(NotificationDisplayed, 0)], [on(NotificationDisplayed, 5)] and
    [once(NotificationDisplayed, 6)] on a new messenger. *)
Definition exampleThrowing : WorkerMessenger unit :=
  orElse (this ← once NotificationDisplayed 0 (newWorkerMessenger tt);
          this ← on NotificationDisplayed 5 this;
          once NotificationDisplayed 6 this)
         (newWorkerMessenger tt).

(** * Properties *)

(** ** The result monad *)

Lemma bind_Ok {A B : Type} (f : A -> Result B) (r : Result A) (b : B) :
  r ≫= f = Ok b -> exists a, r = Ok a /\ f a = Ok b.
Proof. destruct r as [a | e | | e a]; simpl; intros H; try discriminate. eauto. Qed.

Lemma ends_Ok {A : Type} (a a' : A) : ends (Ok a) a' -> a' = a.
Proof. intros [[= ->] | [e H]]; [reflexivity | discriminate]. Qed.

Lemma ends_Raised {A : Type} (e : Error) (a a' : A) : ends (Raised e a) a' -> a' = a.
Proof. intros [H | [e' [= _ ->]]]; [discriminate | reflexivity]. Qed.

Lemma ends_Throw {A : Type} (e : Error) (a : A) : ~ ends (Throw e) a.
Proof. intros [H | [e' H]]; discriminate. Qed.

Lemma ends_OutOfFuel {A : Type} (a : A) : ~ ends OutOfFuel a.
Proof. intros [H | [e' H]]; discriminate. Qed.

Lemma Ok_ends {A : Type} (r : Result A) (a : A) : r = Ok a -> ends r a.
Proof. intros H. left. exact H. Qed.

(** ** Topics and slots *)

Lemma toString_inj (c1 c2 : WorkerMessengerCommand) :
  toString c1 = toString c2 -> c1 = c2.
Proof. destruct c1, c2; simpl; intros H; try reflexivity; discriminate H. Qed.

Lemma findListenersForMessage_listenersOf command b :
  findListenersForMessage command b = JsArray (listenersOf command b).
Proof.
  unfold findListenersForMessage, listenersOf, js_or.
  destruct (js_get (replies b) (toString command)); reflexivity.
Qed.

Lemma js_get_insert (o : gmap string JsValue) (k k' : string) (v : JsValue) :
  js_get (<[k := v]> o) k' = if decide (k = k') then v else js_get o k'.
Proof.
  unfold js_get. rewrite lookup_insert. destruct (decide (k = k')); reflexivity.
Qed.

Lemma js_get_empty (k : string) : js_get ∅ k = JsUndefined.
Proof. unfold js_get. rewrite lookup_empty. reflexivity. Qed.

(** ** [deleteListenerRecord] *)

Lemma strict_equal_true a b : strict_equal a b = true <-> ref a = ref b.
Proof. unfold strict_equal. apply Nat.eqb_eq. Qed.

Lemma deleteLoop_take_drop n targetRecord (l : list WorkerMessengerReplyBufferRecord) :
  n <= length l ->
  deleteLoop n targetRecord l = filter (other_than targetRecord) (take n l) ++ drop n l.
Proof.
  revert l. induction n as [| n IH]; intros l Hn.
  - reflexivity.
  - destruct (lookup_lt_is_Some_2 l n) as [x Hx]; [lia |].
    cbn [deleteLoop]. rewrite Hx.
    rewrite (take_S_r l n x Hx), filter_app.
    destruct (strict_equal x targetRecord) eqn:E.
    + apply strict_equal_true in E.
      rewrite IH by (rewrite length_delete by eauto; lia).
      rewrite delete_take_drop.
      rewrite take_app_le by (rewrite length_take; lia).
      rewrite take_take, Nat.min_id.
      rewrite drop_app_length' by (rewrite length_take; lia).
      rewrite (filter_cons_False _ x []) by (unfold other_than; intros H; apply H, E).
      rewrite filter_nil, app_nil_r. reflexivity.
    + assert (ref x ≠ ref targetRecord) as Hne.
      { intros H. apply strict_equal_true in H. congruence. }
      rewrite IH by lia.
      rewrite (drop_S l x n Hx).
      rewrite (filter_cons_True _ x []) by exact Hne.
      rewrite filter_nil, <- app_assoc. reflexivity.
Qed.

Lemma deleteLoop_filter targetRecord (l : list WorkerMessengerReplyBufferRecord) :
  deleteLoop (length l) targetRecord l = filter (other_than targetRecord) l.
Proof.
  rewrite deleteLoop_take_drop by lia.
  rewrite firstn_all, drop_all, app_nil_r. reflexivity.
Qed.

Lemma filter_keeps_all {A : Type} (P : A -> Prop) `{!forall x, Decision (P x)} (l : list A) :
  (forall x, x ∈ l -> P x) -> filter P l = l.
Proof.
  induction l as [| x l IH]; intros Hall; [reflexivity |].
  rewrite filter_cons_True by (apply Hall; left).
  f_equal. apply IH. intros y Hy. apply Hall. right. exact Hy.
Qed.

Lemma filter_drops_all {A : Type} (P : A -> Prop) `{!forall x, Decision (P x)} (l : list A) :
  (forall x, x ∈ l -> ~ P x) -> filter P l = [].
Proof.
  induction l as [| x l IH]; intros Hall; [reflexivity |].
  rewrite filter_cons_False by (apply Hall; left).
  apply IH. intros y Hy. apply Hall. right. exact Hy.
Qed.

Lemma filter_other_than_absent targetRecord (l : list WorkerMessengerReplyBufferRecord) :
  (forall x, x ∈ l -> ref x ≠ ref targetRecord) ->
  filter (other_than targetRecord) l = l.
Proof. intros H. apply filter_keeps_all. exact H. Qed.

Lemma deleteListenerRecord_array command targetRecord b l :
  js_get (replies b) (toString command) = JsArray l ->
  deleteListenerRecord command targetRecord b =
    Ok {| replies := <[toString command := JsArray (filter (other_than targetRecord) l)]>
                       (replies b);
          allocated := allocated b |}.
Proof.
  intros H. unfold deleteListenerRecord. rewrite H. simpl.
  rewrite deleteLoop_filter. reflexivity.
Qed.

Lemma js_get_array_lookup (o : gmap string JsValue) (k : string) l :
  js_get o k = JsArray l -> o !! k = Some (JsArray l).
Proof.
  unfold js_get. destruct (o !! k) as [v |]; simpl; intros H; [congruence | discriminate].
Qed.

Lemma deleteListenerRecord_absent_record command targetRecord b l :
  js_get (replies b) (toString command) = JsArray l ->
  (forall x, x ∈ l -> ref x ≠ ref targetRecord) ->
  deleteListenerRecord command targetRecord b = Ok b.
Proof.
  intros Hl Habs. rewrite (deleteListenerRecord_array _ _ _ l Hl).
  rewrite filter_other_than_absent by exact Habs.
  rewrite insert_id by (apply js_get_array_lookup; exact Hl).
  destruct b; reflexivity.
Qed.

(** ** [addListener] *)

Lemma addListener_Ok command cb flag b :
  addListener command cb flag b =
    Ok {| replies := <[toString command :=
                         JsArray (listenersOf command b ++
                                  [{| ref := allocated b; callback := cb;
                                      onceListenerOnly := flag |}])]> (replies b);
          allocated := S (allocated b) |}.
Proof.
  unfold addListener. rewrite findListenersForMessage_listenersOf. simpl.
  unfold listenersOf.
  destruct (js_get (replies b) (toString command)) as [| | l] eqn:E; simpl; try reflexivity.
  destruct l as [| x l]; reflexivity.
Qed.

Lemma listenersOf_insert command k v o n :
  listenersOf command {| replies := <[k := v]> o; allocated := n |} =
    if decide (k = toString command)
    then match v with JsArray l => l | _ => [] end
    else listenersOf command {| replies := o; allocated := n |}.
Proof.
  unfold listenersOf. simpl. rewrite js_get_insert.
  destruct (decide (k = toString command)); reflexivity.
Qed.

Lemma listenersOf_addListener_same command cb flag b b' :
  addListener command cb flag b = Ok b' ->
  listenersOf command b' =
    listenersOf command b ++
      [{| ref := allocated b; callback := cb; onceListenerOnly := flag |}].
Proof.
  rewrite addListener_Ok. intros [= <-].
  rewrite listenersOf_insert. destruct (decide (toString command = toString command)); [reflexivity | congruence].
Qed.

Lemma listenersOf_addListener_other command other cb flag b b' :
  other ≠ command ->
  addListener command cb flag b = Ok b' ->
  listenersOf other b' = listenersOf other b.
Proof.
  intros Hne. rewrite addListener_Ok. intros [= <-].
  rewrite listenersOf_insert.
  destruct (decide (toString command = toString other)) as [H | H].
  - apply toString_inj in H. congruence.
  - destruct b; reflexivity.
Qed.

Lemma listenersOf_registered command b x :
  x ∈ listenersOf command b -> registered (ref x) b.
Proof.
  unfold listenersOf, js_get. intros H.
  destruct (replies b !! toString command) as [[| | l] |] eqn:E; simpl in H;
    try (apply elem_of_nil in H; contradiction).
  exists (toString command), l, x. auto.
Qed.

Lemma bounded_new : bounded newReplyBuffer.
Proof. intros k l x H. simpl in H. rewrite lookup_empty in H. discriminate. Qed.

Lemma bounded_listenersOf command b x :
  bounded b -> x ∈ listenersOf command b -> ref x < allocated b.
Proof.
  intros Hwf Hx. destruct (listenersOf_registered _ _ _ Hx) as (k & l & y & Hk & Hy & E).
  rewrite <- E. eapply Hwf; eauto.
Qed.

Lemma bounded_addListener command cb flag b b' :
  bounded b -> addListener command cb flag b = Ok b' -> bounded b'.
Proof.
  intros Hwf. rewrite addListener_Ok. intros [= <-] k l x Hk Hx. simpl in *.
  rewrite lookup_insert in Hk. destruct (decide (toString command = k)) as [Ek | Hne].
  - injection Hk as <-. apply elem_of_app in Hx as [Hx | Hx].
    + apply (bounded_listenersOf command) in Hx; [lia | exact Hwf].
    + apply list_elem_of_singleton in Hx. subst x. simpl. lia.
  - specialize (Hwf k l x Hk Hx). lia.
Qed.

Lemma registered_addListener command cb flag b b' r :
  addListener command cb flag b = Ok b' ->
  registered r b' -> registered r b \/ r = allocated b.
Proof.
  rewrite addListener_Ok. intros [= <-] (k & l & x & Hk & Hx & E). simpl in *.
  rewrite lookup_insert in Hk. destruct (decide (toString command = k)) as [Ek | Hne].
  - injection Hk as <-. apply elem_of_app in Hx as [Hx | Hx].
    + left. rewrite <- E. eapply listenersOf_registered; eauto.
    + apply list_elem_of_singleton in Hx. subst x. right. simpl in E. congruence.
  - left. exists k, l, x. auto.
Qed.

Lemma allocated_addListener command cb flag b b' :
  addListener command cb flag b = Ok b' -> allocated b' = S (allocated b).
Proof. rewrite addListener_Ok. intros [= <-]. reflexivity. Qed.

(** ** The loops of the receive handlers *)

Lemma collect_filter (l toRemove toCall : list WorkerMessengerReplyBufferRecord) :
  collect l toRemove toCall = (toRemove ++ filter once_only l, toCall ++ l).
Proof.
  revert toRemove toCall. induction l as [| x l IH]; intros toRemove toCall.
  - simpl. rewrite !app_nil_r. reflexivity.
  - cbn [collect]. rewrite IH. rewrite <- !app_assoc. simpl.
    destruct (onceListenerOnly x) eqn:E.
    + rewrite filter_cons_True by exact E. rewrite <- app_assoc. reflexivity.
    + rewrite filter_cons_False by (unfold once_only; congruence). reflexivity.
Qed.

Lemma removeAll_filter (targets l : list WorkerMessengerReplyBufferRecord) :
  removeAll targets l = filter (spared targets) l.
Proof.
  unfold removeAll. revert l. induction targets as [| t targets IH]; intros l.
  - simpl. symmetry. apply filter_keeps_all.
    intros x _. unfold spared. simpl. apply not_elem_of_nil.
  - simpl. rewrite IH. rewrite list_filter_filter.
    apply list_filter_iff. intros x. unfold spared, other_than. simpl.
    rewrite not_elem_of_cons. tauto.
Qed.

Lemma spared_reverse targets x : spared (reverse targets) x <-> spared targets x.
Proof. unfold spared. rewrite fmap_reverse, elem_of_reverse. tauto. Qed.

Lemma removeLoop_array command targets b l :
  js_get (replies b) (toString command) = JsArray l ->
  removeLoop command targets b =
    Ok {| replies := <[toString command := JsArray (removeAll targets l)]> (replies b);
          allocated := allocated b |}.
Proof.
  revert b l. induction targets as [| t targets IH]; intros b l Hl.
  - simpl. rewrite insert_id by (apply js_get_array_lookup; exact Hl).
    destruct b; reflexivity.
  - cbn [removeLoop]. rewrite (deleteListenerRecord_array _ _ _ l Hl). simpl.
    erewrite IH.
    2:{ simpl. rewrite js_get_insert.
        destruct (decide (toString command = toString command)); [reflexivity | congruence]. }
    simpl. rewrite insert_insert_eq. reflexivity.
Qed.

Lemma removeLoop_pruned command b :
  removeLoop command (reverse (filter once_only (listenersOf command b))) b =
    Ok (pruned command b).
Proof.
  unfold pruned, listenersOf.
  destruct (js_get (replies b) (toString command)) as [| | l] eqn:E; try reflexivity.
  apply removeLoop_array. exact E.
Qed.

Section HandlerEquations.
Context {W : Type}.
Variable apply : nat -> Callback -> WorkerMessengerPayload ->
                 WorkerMessenger W -> Result (WorkerMessenger W).

Lemma onWorkerMessageReceivedFromPage_callLoop d data (this : WorkerMessenger W) :
  onWorkerMessageReceivedFromPage apply d data this =
    callLoop apply d (listenersOf (command data) (messenger_replies this)) (payload data)
      (dispatched workerLine (command data) this).
Proof.
  unfold onWorkerMessageReceivedFromPage.
  rewrite findListenersForMessage_listenersOf. simpl.
  rewrite collect_filter. simpl.
  rewrite removeLoop_pruned. reflexivity.
Qed.

Lemma onPageMessageReceivedFromServiceWorker_callLoop d data (this : WorkerMessenger W) :
  onPageMessageReceivedFromServiceWorker apply d data this =
    callLoop apply d (listenersOf (command data) (messenger_replies this)) (payload data)
      (dispatched pageLine (command data) this).
Proof.
  unfold onPageMessageReceivedFromServiceWorker.
  rewrite findListenersForMessage_listenersOf. simpl.
  rewrite collect_filter. simpl.
  rewrite removeLoop_pruned. reflexivity.
Qed.
End HandlerEquations.

(** ** Where a run of callbacks stops *)

Section Steps.
Context {W : Type}.
Variable apply : nat -> Callback -> WorkerMessengerPayload ->
                 WorkerMessenger W -> Result (WorkerMessenger W).

Lemma unawaited_Ok (r : Result (WorkerMessenger W)) this :
  unawaited r = Ok this <-> ends r this.
Proof.
  destruct r as [a | e | | e a]; simpl; split.
  - intros [= ->]. left. reflexivity.
  - intros H. apply ends_Ok in H. congruence.
  - discriminate.
  - intros H. apply ends_Throw in H. contradiction.
  - discriminate.
  - intros H. apply ends_OutOfFuel in H. contradiction.
  - intros [= ->]. right. eauto.
  - intros H. apply ends_Raised in H. congruence.
Qed.

Lemma unawaited_not_Raised (r : Result (WorkerMessenger W)) e this :
  unawaited r ≠ Raised e this.
Proof. destruct r; discriminate. Qed.

Lemma perform_not_Raised d call (this : WorkerMessenger W) e this' :
  perform apply d call this ≠ Raised e this'.
Proof.
  destruct call as [c cb | c cb | c | data | data]; simpl.
  - unfold on. rewrite addListener_Ok. discriminate.
  - unfold once. rewrite addListener_Ok. discriminate.
  - discriminate.
  - apply unawaited_not_Raised.
  - apply unawaited_not_Raised.
Qed.

Lemma callLoop_cons_Ok d x l p (this this' : WorkerMessenger W) :
  callLoop apply d (x :: l) p this = Ok this' ->
  exists this1,
    apply (S d) (callback x) p
      (record_invocation {| depth := d; listener := x; argument := p |} this) = Ok this1 /\
    callLoop apply d l p this1 = Ok this'.
Proof.
  cbn [callLoop].
  destruct (apply (S d) (callback x) p
              (record_invocation {| depth := d; listener := x; argument := p |} this))
    as [this1 | e | | e this1]; intros H; try discriminate.
  eauto.
Qed.

Lemma callLoop_cons_ends d x l p (this this' : WorkerMessenger W) :
  ends (callLoop apply d (x :: l) p this) this' ->
  (exists this1,
     apply (S d) (callback x) p
       (record_invocation {| depth := d; listener := x; argument := p |} this) = Ok this1 /\
     ends (callLoop apply d l p this1) this') \/
  (exists e,
     apply (S d) (callback x) p
       (record_invocation {| depth := d; listener := x; argument := p |} this)
     = Raised e this').
Proof.
  cbn [callLoop].
  destruct (apply (S d) (callback x) p
              (record_invocation {| depth := d; listener := x; argument := p |} this))
    as [this1 | e | | e this1]; intros H.
  - left. eauto.
  - apply ends_Throw in H. contradiction.
  - apply ends_OutOfFuel in H. contradiction.
  - apply ends_Raised in H. subst this'. right. eauto.
Qed.

Lemma interp_Do_Ok d call next (this this' : WorkerMessenger W) :
  interp apply d (Do call next) this = Ok this' ->
  exists this1, perform apply d call this = Ok this1 /\ interp apply d next this1 = Ok this'.
Proof.
  cbn [interp].
  destruct (perform apply d call this) as [this1 | e | | e this1]; intros H;
    try discriminate.
  eauto.
Qed.

Lemma interp_Do_ends d call next (this this' : WorkerMessenger W) :
  ends (interp apply d (Do call next) this) this' ->
  exists this1, perform apply d call this = Ok this1 /\
                ends (interp apply d next this1) this'.
Proof.
  cbn [interp].
  destruct (perform apply d call this) as [this1 | e | | e this1] eqn:E; intros H.
  - eauto.
  - apply ends_Throw in H. contradiction.
  - apply ends_OutOfFuel in H. contradiction.
  - exfalso. eapply perform_not_Raised. exact E.
Qed.
End Steps.

(** ** The registry after the second loop *)

Lemma allocated_pruned command b : allocated (pruned command b) = allocated b.
Proof.
  unfold pruned. destruct (js_get (replies b) (toString command)); reflexivity.
Qed.

Lemma listenersOf_pruned_same command b :
  listenersOf command (pruned command b) =
    filter (spared (filter once_only (listenersOf command b))) (listenersOf command b).
Proof.
  unfold pruned, listenersOf.
  destruct (js_get (replies b) (toString command)) as [| | l] eqn:E;
    rewrite ?E; try reflexivity.
  simpl. rewrite js_get_insert.
  destruct (decide (toString command = toString command)); [| congruence].
  rewrite removeAll_filter. apply list_filter_iff. intros x. apply spared_reverse.
Qed.

Lemma listenersOf_pruned_other command other b :
  other ≠ command -> listenersOf other (pruned command b) = listenersOf other b.
Proof.
  intros Hne. unfold pruned.
  destruct (js_get (replies b) (toString command)) as [| | l] eqn:E; try reflexivity.
  rewrite listenersOf_insert.
  destruct (decide (toString command = toString other)) as [H | H].
  - apply toString_inj in H. congruence.
  - destruct b; reflexivity.
Qed.

Lemma pruned_no_once_only command b x :
  x ∈ listenersOf command (pruned command b) ->
  x ∈ listenersOf command b /\ onceListenerOnly x = false.
Proof.
  rewrite listenersOf_pruned_same. intros H.
  apply list_elem_of_filter in H as [Hsp Hx]. split; [exact Hx |].
  destruct (onceListenerOnly x) eqn:E; [| reflexivity].
  exfalso. apply Hsp. apply list_elem_of_fmap. exists x. split; [reflexivity |].
  apply list_elem_of_filter. split; [exact E | exact Hx].
Qed.

Lemma pruned_lookup_other command b k :
  k ≠ toString command -> replies (pruned command b) !! k = replies b !! k.
Proof.
  intros Hne. unfold pruned.
  destruct (js_get (replies b) (toString command)); try reflexivity.
  simpl. rewrite lookup_insert_ne by congruence. reflexivity.
Qed.

Lemma pruned_lookup_array command b k l x :
  replies (pruned command b) !! k = Some (JsArray l) -> x ∈ l ->
  (k = toString command /\ x ∈ listenersOf command (pruned command b)) \/
  (k ≠ toString command /\ replies b !! k = Some (JsArray l)).
Proof.
  intros Hk Hx. destruct (decide (k = toString command)) as [-> | Hne].
  - left. split; [reflexivity |]. unfold listenersOf, js_get. rewrite Hk. exact Hx.
  - right. split; [exact Hne |]. rewrite <- Hk. symmetry. apply pruned_lookup_other. exact Hne.
Qed.

Lemma registered_pruned command b r :
  registered r (pruned command b) -> registered r b.
Proof.
  intros (k & l & x & Hk & Hx & E).
  destruct (pruned_lookup_array _ _ _ _ _ Hk Hx) as [[_ H] | [_ H]].
  - apply pruned_no_once_only in H as [H _]. rewrite <- E.
    eapply listenersOf_registered; eauto.
  - exists k, l, x. auto.
Qed.

Lemma bounded_pruned command b : bounded b -> bounded (pruned command b).
Proof.
  intros Hwf k l x Hk Hx. rewrite allocated_pruned.
  destruct (pruned_lookup_array _ _ _ _ _ Hk Hx) as [[_ H] | [_ H]].
  - apply pruned_no_once_only in H as [H _].
    eapply bounded_listenersOf; eauto.
  - eapply Hwf; eauto.
Qed.

(** ** Retired records are never invoked *)

Lemma retired_pruned command b r : retired r b -> retired r (pruned command b).
Proof.
  intros [Hlt Hnot]. split.
  - rewrite allocated_pruned. exact Hlt.
  - intros H. apply Hnot. eapply registered_pruned. exact H.
Qed.

Lemma retired_addListener command cb flag b b' r :
  addListener command cb flag b = Ok b' -> retired r b -> retired r b'.
Proof.
  intros Hadd [Hlt Hnot]. split.
  - rewrite (allocated_addListener _ _ _ _ _ Hadd). lia.
  - intros H. destruct (registered_addListener _ _ _ _ _ _ Hadd H) as [H' | H']; [auto | lia].
Qed.

Lemma bounded_deleteListenerRecords command b :
  bounded b -> bounded (deleteListenerRecords command b).
Proof.
  intros Hwf k l x Hk Hx. simpl in *.
  rewrite lookup_insert in Hk. destruct (decide (toString command = k)); [discriminate |].
  eapply Hwf; eauto.
Qed.

Lemma retired_deleteListenerRecords command b r :
  retired r b -> retired r (deleteListenerRecords command b).
Proof.
  intros [Hlt Hnot]. split; [exact Hlt |].
  intros (k & l & x & Hk & Hx & E). simpl in Hk.
  rewrite lookup_insert in Hk. destruct (decide (toString command = k)); [discriminate |].
  apply Hnot. exists k, l, x. auto.
Qed.

Lemma bounded_deleteAllListenerRecords b : bounded (deleteAllListenerRecords b).
Proof. intros k l x Hk. simpl in Hk. rewrite lookup_empty in Hk. discriminate. Qed.

Lemma retired_deleteAllListenerRecords b r :
  retired r b -> retired r (deleteAllListenerRecords b).
Proof.
  intros [Hlt _]. split; [exact Hlt |].
  intros (k & l & x & Hk & _). simpl in Hk. rewrite lookup_empty in Hk. discriminate.
Qed.

(** ** Well-formed registries *)

Lemma listenersOf_lookup command b x :
  x ∈ listenersOf command b ->
  replies b !! toString command = Some (JsArray (listenersOf command b)).
Proof.
  unfold listenersOf, js_get. intros H.
  destruct (replies b !! toString command) as [[| | l] |] eqn:E; simpl in *;
    try (apply elem_of_nil in H; contradiction).
  reflexivity.
Qed.

Lemma NoDup_refs_filter (P : WorkerMessengerReplyBufferRecord -> Prop)
    `{!forall x, Decision (P x)} (l : list WorkerMessengerReplyBufferRecord) :
  NoDup (ref <$> l) -> NoDup (ref <$> filter P l).
Proof.
  intros Hnd. eapply sublist_NoDup; [exact Hnd |].
  apply fmap_sublist. apply sublist_filter.
Qed.

Lemma distinct_listenersOf command b :
  distinct b -> NoDup (ref <$> listenersOf command b).
Proof.
  intros [Hnd _]. unfold listenersOf, js_get.
  destruct (replies b !! toString command) as [[| | l] |] eqn:E; simpl;
    try apply NoDup_nil_2.
  eapply Hnd. exact E.
Qed.

Lemma distinct_new : distinct newReplyBuffer.
Proof.
  split.
  - intros k l H. simpl in H. rewrite lookup_empty in H. discriminate.
  - intros k1 k2 l1 l2 x y _ H. simpl in H. rewrite lookup_empty in H. discriminate.
Qed.

Lemma distinct_addListener command cb flag b b' :
  bounded b -> distinct b -> addListener command cb flag b = Ok b' -> distinct b'.
Proof.
  intros Hb Hd. pose proof Hd as [Hnd Hcross].
  rewrite addListener_Ok. intros [= <-].
  assert (forall k l x, k ≠ toString command -> replies b !! k = Some (JsArray l) -> x ∈ l ->
                        forall y, y ∈ listenersOf command b ++
                                      [{| ref := allocated b; callback := cb;
                                          onceListenerOnly := flag |}] ->
                                  ref x ≠ ref y) as Hnew.
  { intros k l x Hk Hl Hx y Hy. apply elem_of_app in Hy as [Hy | Hy].
    - exact (Hcross k (toString command) l (listenersOf command b) x y Hk Hl
               (listenersOf_lookup _ _ _ Hy) Hx Hy).
    - apply list_elem_of_singleton in Hy. subst y. simpl.
      specialize (Hb k l x Hl Hx). lia. }
  split; simpl.
  - intros k l Hk. rewrite lookup_insert in Hk.
    destruct (decide (toString command = k)) as [Ek | Hne]; [| eapply Hnd; exact Hk].
    injection Hk as <-. rewrite fmap_app. apply NoDup_app.
    split; [apply distinct_listenersOf; exact Hd |]. split; [| apply NoDup_singleton].
    intros r Hr Hr'. apply list_elem_of_singleton in Hr'. simpl in Hr'. subst r.
    apply list_elem_of_fmap in Hr as (x & E & Hx).
    apply (bounded_listenersOf _ _ _ Hb) in Hx. lia.
  - intros k1 k2 l1 l2 x y Hne H1 H2 Hx Hy. rewrite lookup_insert in H1, H2.
    destruct (decide (toString command = k1)) as [E1 | N1];
      destruct (decide (toString command = k2)) as [E2 | N2].
    + congruence.
    + injection H1 as <-. intros E. symmetry in E. revert E.
      apply (Hnew k2 l2 y ltac:(congruence) H2 Hy x Hx).
    + injection H2 as <-.
      apply (Hnew k1 l1 x ltac:(congruence) H1 Hx y Hy).
    + exact (Hcross k1 k2 l1 l2 x y Hne H1 H2 Hx Hy).
Qed.

Lemma distinct_pruned command b : distinct b -> distinct (pruned command b).
Proof.
  intros Hd. pose proof Hd as [Hnd Hcross]. split.
  - intros k l Hk. destruct (decide (k = toString command)) as [-> | Hne].
    + assert (l = listenersOf command (pruned command b)) as ->.
      { unfold listenersOf, js_get. rewrite Hk. reflexivity. }
      rewrite listenersOf_pruned_same. apply NoDup_refs_filter.
      apply distinct_listenersOf. exact Hd.
    + rewrite pruned_lookup_other in Hk by exact Hne. eapply Hnd. exact Hk.
  - intros k1 k2 l1 l2 x y Hne H1 H2 Hx Hy.
    destruct (pruned_lookup_array _ _ _ _ _ H1 Hx) as [[E1 Hx'] | [N1 H1']];
      destruct (pruned_lookup_array _ _ _ _ _ H2 Hy) as [[E2 Hy'] | [N2 H2']].
    + congruence.
    + apply pruned_no_once_only in Hx' as [Hx' _]. subst k1.
      exact (Hcross _ k2 (listenersOf command b) l2 x y Hne
               (listenersOf_lookup _ _ _ Hx') H2' Hx' Hy).
    + apply pruned_no_once_only in Hy' as [Hy' _]. subst k2.
      exact (Hcross k1 _ l1 (listenersOf command b) x y Hne H1'
               (listenersOf_lookup _ _ _ Hy') Hx Hy').
    + exact (Hcross k1 k2 l1 l2 x y Hne H1' H2' Hx Hy).
Qed.

Lemma distinct_deleteListenerRecords command b :
  distinct b -> distinct (deleteListenerRecords command b).
Proof.
  intros [Hnd Hcross]. split; simpl.
  - intros k l Hk. rewrite lookup_insert in Hk.
    destruct (decide (toString command = k)); [discriminate |]. eapply Hnd. exact Hk.
  - intros k1 k2 l1 l2 x y Hne H1 H2. rewrite lookup_insert in H1, H2.
    destruct (decide (toString command = k1)); [discriminate |].
    destruct (decide (toString command = k2)); [discriminate |].
    exact (Hcross k1 k2 l1 l2 x y Hne H1 H2).
Qed.

Lemma distinct_deleteAllListenerRecords b : distinct (deleteAllListenerRecords b).
Proof.
  split; simpl.
  - intros k l H. rewrite lookup_empty in H. discriminate.
  - intros k1 k2 l1 l2 x y _ H. rewrite lookup_empty in H. discriminate.
Qed.

Lemma well_formed_new : well_formed newReplyBuffer.
Proof. split; [apply bounded_new | apply distinct_new]. Qed.

Lemma well_formed_listenersOf command b x :
  well_formed b -> x ∈ listenersOf command b -> ref x < allocated b.
Proof. intros [Hb _]. apply bounded_listenersOf. exact Hb. Qed.

Lemma well_formed_addListener command cb flag b b' :
  well_formed b -> addListener command cb flag b = Ok b' -> well_formed b'.
Proof.
  intros [Hb Hd] H. split;
    [eapply bounded_addListener | eapply distinct_addListener]; eauto.
Qed.

Lemma well_formed_pruned command b : well_formed b -> well_formed (pruned command b).
Proof.
  intros [Hb Hd]. split; [apply bounded_pruned | apply distinct_pruned]; assumption.
Qed.

Lemma well_formed_deleteListenerRecords command b :
  well_formed b -> well_formed (deleteListenerRecords command b).
Proof.
  intros [Hb Hd].
  split; [apply bounded_deleteListenerRecords | apply distinct_deleteListenerRecords];
    assumption.
Qed.

Lemma well_formed_deleteAllListenerRecords b : well_formed (deleteAllListenerRecords b).
Proof.
  split; [apply bounded_deleteAllListenerRecords | apply distinct_deleteAllListenerRecords].
Qed.

Lemma retired_not_listener command b r :
  retired r b -> filter (has_ref r) (listenersOf command b) = [].
Proof.
  intros [_ Hnot]. apply filter_drops_all. intros x Hx Hr.
  apply Hnot. rewrite <- Hr. eapply listenersOf_registered. exact Hx.
Qed.

Section Retired.
Context {W : Type}.

Lemma keeps_retired_refl (this : WorkerMessenger W) :
  well_formed (messenger_replies this) -> keeps_retired this this.
Proof. intros Hwf. split; [exact Hwf | auto]. Qed.

Lemma keeps_retired_trans (s1 s2 s3 : WorkerMessenger W) :
  keeps_retired s1 s2 -> keeps_retired s2 s3 -> keeps_retired s1 s3.
Proof.
  intros [_ H12] [Hwf H23]. split; [exact Hwf |].
  intros r Hr. destruct (H12 r Hr) as [Hr2 E2]. destruct (H23 r Hr2) as [Hr3 E3].
  split; [exact Hr3 | congruence].
Qed.

Lemma timesInvoked_record_invocation r i (this : WorkerMessenger W) :
  timesInvoked r (record_invocation i this) =
    timesInvoked r this + length (filter (has_ref r) [listener i]).
Proof.
  unfold timesInvoked. simpl. rewrite filter_app, length_app. f_equal.
  destruct (decide (ref (listener i) = r)) as [E | E].
  - rewrite !filter_cons_True by exact E. reflexivity.
  - rewrite !filter_cons_False by exact E. reflexivity.
Qed.

Lemma keeps_retired_on command cb (this this' : WorkerMessenger W) :
  well_formed (messenger_replies this) ->
  on command cb this = Ok this' -> keeps_retired this this'.
Proof.
  intros Hwf H. unfold on in H. apply bind_Ok in H as (b & Hadd & [= <-]).
  split; simpl.
  - eapply well_formed_addListener; eauto.
  - intros r Hr. split; [| reflexivity]. eapply retired_addListener; eauto.
Qed.

Lemma keeps_retired_once command cb (this this' : WorkerMessenger W) :
  well_formed (messenger_replies this) ->
  once command cb this = Ok this' -> keeps_retired this this'.
Proof.
  intros Hwf H. unfold once in H. apply bind_Ok in H as (b & Hadd & [= <-]).
  split; simpl.
  - eapply well_formed_addListener; eauto.
  - intros r Hr. split; [| reflexivity]. eapply retired_addListener; eauto.
Qed.

Lemma keeps_retired_off command (this : WorkerMessenger W) :
  well_formed (messenger_replies this) -> keeps_retired this (off command this).
Proof.
  intros Hwf. destruct command as [command |]; split; simpl.
  - apply well_formed_deleteListenerRecords. exact Hwf.
  - intros r Hr. split; [| reflexivity]. apply retired_deleteListenerRecords. exact Hr.
  - apply well_formed_deleteAllListenerRecords.
  - intros r Hr. split; [| reflexivity]. apply retired_deleteAllListenerRecords. exact Hr.
Qed.

Lemma keeps_retired_dispatched line command (this : WorkerMessenger W) :
  well_formed (messenger_replies this) -> keeps_retired this (dispatched line command this).
Proof.
  intros Hwf. split; simpl.
  - apply well_formed_pruned. exact Hwf.
  - intros r Hr. split; [| reflexivity]. apply retired_pruned. exact Hr.
Qed.

Section RetiredLoops.
Variable apply : nat -> Callback -> WorkerMessengerPayload ->
                 WorkerMessenger W -> Result (WorkerMessenger W).
Hypothesis apply_keeps : forall d cb p this this',
  well_formed (messenger_replies this) ->
  ends (apply d cb p this) this' -> keeps_retired this this'.

Lemma callLoop_retired l : forall d p (this this' : WorkerMessenger W),
  well_formed (messenger_replies this) ->
  callLoop apply d l p this = Ok this' ->
  well_formed (messenger_replies this') /\
  forall r, retired r (messenger_replies this) ->
            retired r (messenger_replies this') /\
            timesInvoked r this' = timesInvoked r this + length (filter (has_ref r) l).
Proof.
  induction l as [| x l IH]; intros d p this this' Hwf H.
  - injection H as <-. split; [exact Hwf |]. intros r Hr. simpl. split; [exact Hr | lia].
  - apply callLoop_cons_Ok in H as (this1 & Happ & Hrest).
    apply Ok_ends, apply_keeps in Happ as [Hwf1 Hkeep1]; [| exact Hwf].
    destruct (IH _ _ _ _ Hwf1 Hrest) as [Hwf' Hkeep']. split; [exact Hwf' |].
    intros r Hr. destruct (Hkeep1 r Hr) as [Hr1 E1]. destruct (Hkeep' r Hr1) as [Hr' E'].
    split; [exact Hr' |]. rewrite E', E1, timesInvoked_record_invocation. simpl.
    change (x :: l) with ([x] ++ l). rewrite filter_app, length_app. lia.
Qed.

Lemma callLoop_keeps_retired l : forall d p (this this' : WorkerMessenger W),
  well_formed (messenger_replies this) ->
  ends (callLoop apply d l p this) this' ->
  well_formed (messenger_replies this') /\
  forall r, retired r (messenger_replies this) ->
            filter (has_ref r) l = [] ->
            retired r (messenger_replies this') /\
            timesInvoked r this' = timesInvoked r this.
Proof.
  induction l as [| x l IH]; intros d p this this' Hwf H.
  - apply ends_Ok in H. subst this'. split; [exact Hwf |]. intros r Hr _. split; [exact Hr | reflexivity].
  - assert (forall r, filter (has_ref r) (x :: l) = [] ->
                      filter (has_ref r) [x] = [] /\ filter (has_ref r) l = []) as Hsplit.
    { intros r E. change (x :: l) with ([x] ++ l) in E. rewrite filter_app in E.
      apply app_eq_nil in E. exact E. }
    apply callLoop_cons_ends in H as [(this1 & Happ & Hrest) | (e & Happ)].
    + apply Ok_ends, apply_keeps in Happ as [Hwf1 Hkeep1]; [| exact Hwf].
      destruct (IH _ _ _ _ Hwf1 Hrest) as [Hwf' Hkeep']. split; [exact Hwf' |].
      intros r Hr Hnot. destruct (Hsplit r Hnot) as [Hx Hl].
      destruct (Hkeep1 r Hr) as [Hr1 E1]. destruct (Hkeep' r Hr1 Hl) as [Hr' E'].
      split; [exact Hr' |]. rewrite E', E1, timesInvoked_record_invocation. simpl.
      simpl in Hx. rewrite Hx. simpl. lia.
    + assert (ends (apply (S d) (callback x) p
                      (record_invocation {| depth := d; listener := x; argument := p |} this))
                   this') as Hends by (right; eauto).
      apply apply_keeps in Hends as [Hwf1 Hkeep1]; [| exact Hwf].
      split; [exact Hwf1 |]. intros r Hr Hnot. destruct (Hsplit r Hnot) as [Hx _].
      destruct (Hkeep1 r Hr) as [Hr1 E1]. split; [exact Hr1 |].
      rewrite E1, timesInvoked_record_invocation. simpl. simpl in Hx. rewrite Hx. simpl. lia.
Qed.

Lemma dispatch_keeps_retired line d data (this this' : WorkerMessenger W) :
  well_formed (messenger_replies this) ->
  ends (callLoop apply d (listenersOf (command data) (messenger_replies this)) (payload data)
          (dispatched line (command data) this)) this' ->
  keeps_retired this this'.
Proof.
  intros Hwf H.
  destruct (keeps_retired_dispatched line (command data) this Hwf) as [Hwf1 Hkeep1].
  destruct (callLoop_keeps_retired _ _ _ _ _ Hwf1 H) as [Hwf' Hkeep']. split; [exact Hwf' |].
  intros r Hr. destruct (Hkeep1 r Hr) as [Hr1 E1].
  destruct (Hkeep' r Hr1 (retired_not_listener _ _ _ Hr)) as [Hr' E'].
  split; [exact Hr' |]. rewrite E', E1. reflexivity.
Qed.

Lemma perform_keeps_retired d call (this this' : WorkerMessenger W) :
  well_formed (messenger_replies this) ->
  perform apply d call this = Ok this' -> keeps_retired this this'.
Proof.
  intros Hwf H. destruct call as [c cb | c cb | c | data | data]; simpl in H.
  - eapply keeps_retired_on; eauto.
  - eapply keeps_retired_once; eauto.
  - injection H as <-. apply keeps_retired_off. exact Hwf.
  - apply unawaited_Ok in H. rewrite onWorkerMessageReceivedFromPage_callLoop in H.
    eapply dispatch_keeps_retired; eauto.
  - apply unawaited_Ok in H. rewrite onPageMessageReceivedFromServiceWorker_callLoop in H.
    eapply dispatch_keeps_retired; eauto.
Qed.

Lemma interp_keeps_retired_ends code : forall d (this this' : WorkerMessenger W),
  well_formed (messenger_replies this) ->
  ends (interp apply d code this) this' -> keeps_retired this this'.
Proof.
  induction code as [| call next IH | next IH | w next IH | e]; intros d this this' Hwf H.
  - apply ends_Ok in H. subst this'. apply keeps_retired_refl. exact Hwf.
  - apply interp_Do_ends in H as (this1 & Hcall & Hnext).
    pose proof (perform_keeps_retired _ _ _ _ Hwf Hcall) as H1.
    eapply keeps_retired_trans; [exact H1 |]. eapply IH; [apply H1 | exact Hnext].
  - eapply IH; eauto.
  - apply (IH d (set_closure w this) this' Hwf) in H. exact H.
  - apply ends_Raised in H. subst this'. apply keeps_retired_refl. exact Hwf.
Qed.

Lemma interp_keeps_retired code d (this this' : WorkerMessenger W) :
  well_formed (messenger_replies this) ->
  interp apply d code this = Ok this' -> keeps_retired this this'.
Proof. intros Hwf H. eapply interp_keeps_retired_ends; [exact Hwf | left; exact H]. Qed.
End RetiredLoops.

Variable body : Callback -> WorkerMessengerPayload -> Prog W.

Lemma applyCallback_keeps_retired fuel : forall d cb p (this this' : WorkerMessenger W),
  well_formed (messenger_replies this) ->
  ends (applyCallback body fuel d cb p this) this' -> keeps_retired this this'.
Proof.
  induction fuel as [| fuel IH]; intros d cb p this this' Hwf H; simpl in H.
  - apply ends_OutOfFuel in H. contradiction.
  - eapply interp_keeps_retired_ends; eauto.
Qed.
End Retired.

(** ** The invocations a dispatch makes itself *)

Lemma filter_at_depth_deeper d (more : list Invocation) :
  Forall (fun i => S d <= depth i) more -> filter (at_depth d) more = [].
Proof.
  intros H. apply filter_drops_all. intros i Hi E.
  rewrite Forall_forall in H. specialize (H i Hi). unfold at_depth in E. lia.
Qed.

Lemma Forall_deeper_weaken d (more : list Invocation) :
  Forall (fun i => S d <= depth i) more -> Forall (fun i => d <= depth i) more.
Proof. intros H. eapply Forall_impl; [exact H |]. simpl. intros i Hi. lia. Qed.

Section Depth.
Context {W : Type}.

Lemma extends_from_refl d (this this' : WorkerMessenger W) :
  invocations this' = invocations this -> extends_from d this this'.
Proof. intros E. exists []. rewrite app_nil_r. split; [exact E | constructor]. Qed.

Lemma extends_from_trans d (s1 s2 s3 : WorkerMessenger W) :
  extends_from d s1 s2 -> extends_from d s2 s3 -> extends_from d s1 s3.
Proof.
  intros (m1 & E1 & F1) (m2 & E2 & F2). exists (m1 ++ m2). split.
  - rewrite E2, E1, app_assoc. reflexivity.
  - apply Forall_app. split; assumption.
Qed.

Lemma invocations_on command cb (this this' : WorkerMessenger W) :
  on command cb this = Ok this' -> invocations this' = invocations this.
Proof. unfold on. intros H. apply bind_Ok in H as (b & _ & [= <-]). reflexivity. Qed.

Lemma invocations_once command cb (this this' : WorkerMessenger W) :
  once command cb this = Ok this' -> invocations this' = invocations this.
Proof. unfold once. intros H. apply bind_Ok in H as (b & _ & [= <-]). reflexivity. Qed.

Lemma invocations_off command (this : WorkerMessenger W) :
  invocations (off command this) = invocations this.
Proof. destruct command; reflexivity. Qed.

Section DepthLoops.
Variable apply : nat -> Callback -> WorkerMessengerPayload ->
                 WorkerMessenger W -> Result (WorkerMessenger W).
Hypothesis apply_extends : forall d cb p this this',
  ends (apply d cb p this) this' -> extends_from d this this'.

Lemma callLoop_calls l : forall d p (this this' : WorkerMessenger W),
  callLoop apply d l p this = Ok this' ->
  exists more, invocations this' = invocations this ++ more /\
               Forall (fun i => d <= depth i) more /\
               filter (at_depth d) more = calls d p l.
Proof.
  induction l as [| x l IH]; intros d p this this' H.
  - injection H as <-. exists []. rewrite app_nil_r. repeat split. constructor.
  - apply callLoop_cons_Ok in H as (this1 & Happ & Hrest).
    destruct (apply_extends _ _ _ _ _ (Ok_ends _ _ Happ)) as (m1 & E1 & F1).
    destruct (IH _ _ _ _ Hrest) as (m2 & E2 & F2 & C2).
    exists ({| depth := d; listener := x; argument := p |} :: m1 ++ m2).
    split; [| split].
    + rewrite E2, E1. simpl. rewrite <- !app_assoc. reflexivity.
    + constructor; [simpl; lia |]. apply Forall_app. split; [| exact F2].
      apply Forall_deeper_weaken. exact F1.
    + rewrite filter_cons_True by reflexivity.
      rewrite filter_app, (filter_at_depth_deeper _ _ F1), C2. reflexivity.
Qed.

Lemma extends_from_invoked d x p (this this1 this' : WorkerMessenger W) :
  extends_from (S d)
    (record_invocation {| depth := d; listener := x; argument := p |} this) this1 ->
  extends_from d this1 this' ->
  extends_from d this this'.
Proof.
  intros (m1 & E1 & F1) (m2 & E2 & F2).
  exists ({| depth := d; listener := x; argument := p |} :: m1 ++ m2). split.
  - rewrite E2, E1. simpl. rewrite <- !app_assoc. reflexivity.
  - constructor; [simpl; lia |]. apply Forall_app. split; [| exact F2].
    apply Forall_deeper_weaken. exact F1.
Qed.

Lemma callLoop_extends l : forall d p (this this' : WorkerMessenger W),
  ends (callLoop apply d l p this) this' -> extends_from d this this'.
Proof.
  induction l as [| x l IH]; intros d p this this' H.
  - apply ends_Ok in H. subst this'. apply extends_from_refl. reflexivity.
  - apply callLoop_cons_ends in H as [(this1 & Happ & Hrest) | (e & Happ)].
    + eapply extends_from_invoked.
      * eapply apply_extends. left. exact Happ.
      * eapply IH. exact Hrest.
    + eapply extends_from_invoked.
      * eapply apply_extends. right. exists e. exact Happ.
      * apply extends_from_refl. reflexivity.
Qed.

Lemma perform_extends d call (this this' : WorkerMessenger W) :
  perform apply d call this = Ok this' -> extends_from d this this'.
Proof.
  intros H. destruct call as [c cb | c cb | c | data | data]; simpl in H.
  - apply extends_from_refl. eapply invocations_on; eauto.
  - apply extends_from_refl. eapply invocations_once; eauto.
  - injection H as <-. apply extends_from_refl. apply invocations_off.
  - apply unawaited_Ok in H. rewrite onWorkerMessageReceivedFromPage_callLoop in H.
    apply callLoop_extends in H. exact H.
  - apply unawaited_Ok in H. rewrite onPageMessageReceivedFromServiceWorker_callLoop in H.
    apply callLoop_extends in H. exact H.
Qed.

Lemma interp_extends code : forall d (this this' : WorkerMessenger W),
  ends (interp apply d code this) this' -> extends_from d this this'.
Proof.
  induction code as [| call next IH | next IH | w next IH | e]; intros d this this' H.
  - apply ends_Ok in H. subst this'. apply extends_from_refl. reflexivity.
  - apply interp_Do_ends in H as (this1 & Hcall & Hnext).
    eapply extends_from_trans; [eapply perform_extends; eauto | eapply IH; eauto].
  - eapply IH; eauto.
  - apply IH in H. exact H.
  - apply ends_Raised in H. subst this'. apply extends_from_refl. reflexivity.
Qed.
End DepthLoops.

Variable body : Callback -> WorkerMessengerPayload -> Prog W.

Lemma applyCallback_extends fuel : forall d cb p (this this' : WorkerMessenger W),
  ends (applyCallback body fuel d cb p this) this' -> extends_from d this this'.
Proof.
  induction fuel as [| fuel IH]; intros d cb p this this' H; simpl in H.
  - apply ends_OutOfFuel in H. contradiction.
  - eapply interp_extends; eauto.
Qed.

(** *** Callbacks that do not re-enter the dispatch *)

Lemma interp_quiet apply code :
  quiet code -> forall d (this : WorkerMessenger W),
    exists this', interp apply d code this = Ok this' /\
                  invocations this' = invocations this.
Proof.
  induction 1 as [| c cb next _ IH | c cb next _ IH | c next _ IH | next _ IH | w next _ IH];
    intros d this; simpl.
  - eauto.
  - unfold on. rewrite addListener_Ok. simpl.
    destruct (IH d (set_replies
                      {| replies := <[toString c := JsArray (listenersOf c (messenger_replies this) ++
                           [{| ref := allocated (messenger_replies this); callback := cb;
                               onceListenerOnly := false |}])]> (replies (messenger_replies this));
                         allocated := S (allocated (messenger_replies this)) |} this))
      as (this' & E & I).
    exists this'. split; [exact E | exact I].
  - unfold once. rewrite addListener_Ok. simpl.
    destruct (IH d (set_replies
                      {| replies := <[toString c := JsArray (listenersOf c (messenger_replies this) ++
                           [{| ref := allocated (messenger_replies this); callback := cb;
                               onceListenerOnly := true |}])]> (replies (messenger_replies this));
                         allocated := S (allocated (messenger_replies this)) |} this))
      as (this' & E & I).
    exists this'. split; [exact E | exact I].
  - destruct (IH d (off c this)) as (this' & E & I).
    exists this'. split; [exact E |]. rewrite I. apply invocations_off.
  - apply IH.
  - destruct (IH d (set_closure w this)) as (this' & E & I).
    exists this'. split; [exact E | exact I].
Qed.

Lemma callLoop_quiet fuel l : forall d p (this : WorkerMessenger W),
  (forall x, x ∈ l -> quiet (body (callback x) p)) ->
  exists this', callLoop (applyCallback body (S fuel)) d l p this = Ok this' /\
                invocations this' = invocations this ++ calls d p l.
Proof.
  induction l as [| x l IH]; intros d p this Hq.
  - exists this. rewrite app_nil_r. split; reflexivity.
  - cbn [callLoop applyCallback].
    destruct (interp_quiet (applyCallback body fuel) (body (callback x) p)
                (Hq x ltac:(left)) (S d)
                (record_invocation {| depth := d; listener := x; argument := p |} this))
      as (this1 & E1 & I1).
    rewrite E1. simpl.
    destruct (IH d p this1 ltac:(intros y Hy; apply Hq; right; exact Hy))
      as (this' & E' & I').
    exists this'. split; [exact E' |].
    rewrite I', I1. simpl. rewrite <- app_assoc. reflexivity.
Qed.
End Depth.

(** ** The two receive handlers *)

Lemma alike_bind {A B : Type} (R : A -> A -> Prop) (Q : B -> B -> Prop)
    (f1 f2 : A -> Result B) (r1 r2 : Result A) :
  alike R r1 r2 ->
  (forall a1 a2, R a1 a2 -> alike Q (f1 a1) (f2 a2)) ->
  alike Q (r1 ≫= f1) (r2 ≫= f2).
Proof.
  destruct r1 as [a1 | e1 | | e1 a1], r2 as [a2 | e2 | | e2 a2]; simpl; intros H Hf;
    try contradiction; auto.
  destruct H as [H _]. exact H.
Qed.

Lemma alike_then {A : Type} (R : A -> A -> Prop)
    (k1 k2 : A -> Result A) (r1 r2 : Result A) :
  alike R r1 r2 ->
  (forall a1 a2, R a1 a2 -> alike R (k1 a1) (k2 a2)) ->
  alike R (match r1 with
           | Ok a => k1 a
           | Throw e => Throw e
           | OutOfFuel => OutOfFuel
           | Raised e a => Raised e a
           end)
          (match r2 with
           | Ok a => k2 a
           | Throw e => Throw e
           | OutOfFuel => OutOfFuel
           | Raised e a => Raised e a
           end).
Proof.
  destruct r1 as [a1 | e1 | | e1 a1], r2 as [a2 | e2 | | e2 a2]; simpl; intros H Hf;
    try contradiction; auto.
Qed.

Section SameButConsole.
Context {W : Type}.

Lemma alike_unawaited (r1 r2 : Result (WorkerMessenger W)) :
  alike same_but_console r1 r2 -> alike same_but_console (unawaited r1) (unawaited r2).
Proof.
  destruct r1 as [a1 | e1 | | e1 a1], r2 as [a2 | e2 | | e2 a2]; simpl; intros H;
    try contradiction; auto.
  destruct H as [_ H]. exact H.
Qed.

Lemma same_but_console_record_invocation i (s1 s2 : WorkerMessenger W) :
  same_but_console s1 s2 ->
  same_but_console (record_invocation i s1) (record_invocation i s2).
Proof. intros (Hb & Hc & Hi). repeat split; simpl; congruence. Qed.

Lemma same_but_console_dispatched line1 line2 command (s1 s2 : WorkerMessenger W) :
  same_but_console s1 s2 ->
  same_but_console (dispatched line1 command s1) (dispatched line2 command s2).
Proof. intros (Hb & Hc & Hi). repeat split; simpl; congruence. Qed.

Lemma same_but_console_on command cb (s1 s2 : WorkerMessenger W) :
  same_but_console s1 s2 ->
  alike same_but_console (on command cb s1) (on command cb s2).
Proof.
  intros (Hb & Hc & Hi). unfold on. rewrite Hb, addListener_Ok. simpl.
  repeat split; simpl; congruence.
Qed.

Lemma same_but_console_once command cb (s1 s2 : WorkerMessenger W) :
  same_but_console s1 s2 ->
  alike same_but_console (once command cb s1) (once command cb s2).
Proof.
  intros (Hb & Hc & Hi). unfold once. rewrite Hb, addListener_Ok. simpl.
  repeat split; simpl; congruence.
Qed.

Lemma same_but_console_off command (s1 s2 : WorkerMessenger W) :
  same_but_console s1 s2 -> same_but_console (off command s1) (off command s2).
Proof. intros (Hb & Hc & Hi). destruct command; repeat split; simpl; congruence. Qed.

Section ConsoleLoops.
Variable apply : nat -> Callback -> WorkerMessengerPayload ->
                 WorkerMessenger W -> Result (WorkerMessenger W).
Hypothesis apply_alike : forall d cb p s1 s2,
  same_but_console s1 s2 -> alike same_but_console (apply d cb p s1) (apply d cb p s2).

Lemma callLoop_alike l : forall d p (s1 s2 : WorkerMessenger W),
  same_but_console s1 s2 ->
  alike same_but_console (callLoop apply d l p s1) (callLoop apply d l p s2).
Proof.
  induction l as [| x l IH]; intros d p s1 s2 H; cbn [callLoop].
  - exact H.
  - apply (alike_then same_but_console (callLoop apply d l p) (callLoop apply d l p)).
    + apply apply_alike. apply same_but_console_record_invocation. exact H.
    + intros a1 a2 Ha. apply IH. exact Ha.
Qed.

Lemma dispatch_alike line1 line2 d data (s1 s2 : WorkerMessenger W) :
  same_but_console s1 s2 ->
  alike same_but_console
    (callLoop apply d (listenersOf (command data) (messenger_replies s1)) (payload data)
       (dispatched line1 (command data) s1))
    (callLoop apply d (listenersOf (command data) (messenger_replies s2)) (payload data)
       (dispatched line2 (command data) s2)).
Proof.
  intros H. destruct H as (Hb & Hc & Hi). rewrite Hb.
  apply callLoop_alike. apply same_but_console_dispatched. repeat split; assumption.
Qed.

Lemma perform_alike d call (s1 s2 : WorkerMessenger W) :
  same_but_console s1 s2 ->
  alike same_but_console (perform apply d call s1) (perform apply d call s2).
Proof.
  intros H. destruct call as [c cb | c cb | c | data | data]; simpl.
  - apply same_but_console_on. exact H.
  - apply same_but_console_once. exact H.
  - apply same_but_console_off. exact H.
  - apply alike_unawaited.
    rewrite !onWorkerMessageReceivedFromPage_callLoop. apply dispatch_alike. exact H.
  - apply alike_unawaited.
    rewrite !onPageMessageReceivedFromServiceWorker_callLoop. apply dispatch_alike. exact H.
Qed.

Lemma interp_alike code : forall d (s1 s2 : WorkerMessenger W),
  same_but_console s1 s2 ->
  alike same_but_console (interp apply d code s1) (interp apply d code s2).
Proof.
  induction code as [| call next IH | next IH | w next IH | e]; intros d s1 s2 H;
    cbn [interp].
  - exact H.
  - apply (alike_then same_but_console (interp apply d next) (interp apply d next)).
    + apply perform_alike. exact H.
    + intros a1 a2 Ha. apply IH. exact Ha.
  - destruct H as (Hb & Hc & Hi). rewrite Hc. apply IH. repeat split; assumption.
  - apply IH. destruct H as (Hb & Hc & Hi). repeat split; simpl; assumption.
  - split; [reflexivity | exact H].
Qed.
End ConsoleLoops.

Variable body : Callback -> WorkerMessengerPayload -> Prog W.

Lemma applyCallback_alike fuel : forall d cb p (s1 s2 : WorkerMessenger W),
  same_but_console s1 s2 ->
  alike same_but_console (applyCallback body fuel d cb p s1)
                         (applyCallback body fuel d cb p s2).
Proof.
  induction fuel as [| fuel IH]; intros d cb p s1 s2 H; simpl; [exact I |].
  apply interp_alike; [exact IH | exact H].
Qed.
End SameButConsole.

(** ** The receive handlers do not throw *)

(** The three places of a handler that could raise a [TypeError] (the
    [for ... of], [deleteListenerRecord] and, in [addListener], [push]) are
    never reached with a value that is not an array: when a handler's
    promise rejects, a callback threw. *)

Section NoThrow.
Context {W : Type}.

Section NoThrowLoops.
Variable apply : nat -> Callback -> WorkerMessengerPayload ->
                 WorkerMessenger W -> Result (WorkerMessenger W).
Hypothesis apply_no_throw : forall d cb p this e, apply d cb p this ≠ Throw e.

Lemma callLoop_no_throw l : forall d p (this : WorkerMessenger W) e,
  callLoop apply d l p this ≠ Throw e.
Proof.
  induction l as [| x l IH]; intros d p this e; cbn [callLoop]; [discriminate |].
  destruct (apply (S d) (callback x) p
              (record_invocation {| depth := d; listener := x; argument := p |} this))
    as [this1 | e1 | | e1 this1] eqn:E; simpl.
  - apply IH.
  - exfalso. eapply apply_no_throw. exact E.
  - discriminate.
  - discriminate.
Qed.

Lemma unawaited_no_throw (r : Result (WorkerMessenger W)) e :
  r ≠ Throw e -> unawaited r ≠ Throw e.
Proof. destruct r; simpl; intros H; try discriminate. exact H. Qed.

Lemma perform_no_throw d call (this : WorkerMessenger W) e :
  perform apply d call this ≠ Throw e.
Proof.
  destruct call as [c cb | c cb | c | data | data]; simpl.
  - unfold on. rewrite addListener_Ok. discriminate.
  - unfold once. rewrite addListener_Ok. discriminate.
  - discriminate.
  - apply unawaited_no_throw.
    rewrite onWorkerMessageReceivedFromPage_callLoop. apply callLoop_no_throw.
  - apply unawaited_no_throw.
    rewrite onPageMessageReceivedFromServiceWorker_callLoop. apply callLoop_no_throw.
Qed.

Lemma interp_no_throw code : forall d (this : WorkerMessenger W) e,
  interp apply d code this ≠ Throw e.
Proof.
  induction code as [| call next IH | next IH | w next IH | e']; intros d this e;
    cbn [interp].
  - discriminate.
  - destruct (perform apply d call this) as [this1 | e1 | | e1 this1] eqn:E; simpl.
    + apply IH.
    + exfalso. eapply perform_no_throw. exact E.
    + discriminate.
    + discriminate.
  - apply IH.
  - apply IH.
  - discriminate.
Qed.
End NoThrowLoops.

Variable body : Callback -> WorkerMessengerPayload -> Prog W.

Lemma applyCallback_no_throw fuel : forall d cb p (this : WorkerMessenger W) e,
  applyCallback body fuel d cb p this ≠ Throw e.
Proof.
  induction fuel as [| fuel IH]; intros d cb p this e; simpl; [discriminate |].
  apply interp_no_throw. exact IH.
Qed.

Lemma onWorkerMessageReceivedFromPage_no_throw fuel d data (this : WorkerMessenger W) e :
  onWorkerMessageReceivedFromPage (applyCallback body fuel) d data this ≠ Throw e.
Proof.
  rewrite onWorkerMessageReceivedFromPage_callLoop.
  apply callLoop_no_throw, applyCallback_no_throw.
Qed.

Lemma onPageMessageReceivedFromServiceWorker_no_throw fuel d data
    (this : WorkerMessenger W) e :
  onPageMessageReceivedFromServiceWorker (applyCallback body fuel) d data this ≠ Throw e.
Proof.
  rewrite onPageMessageReceivedFromServiceWorker_callLoop.
  apply callLoop_no_throw, applyCallback_no_throw.
Qed.
End NoThrow.

(** ** Registering a list of persistent listeners *)

Lemma persistentRecords_cons start cb callbacks :
  persistentRecords start (cb :: callbacks) =
    {| ref := start; callback := cb; onceListenerOnly := false |}
      :: persistentRecords (S start) callbacks.
Proof.
  unfold persistentRecords. rewrite imap_cons. rewrite Nat.add_0_r. f_equal.
  apply imap_ext. intros i x _. simpl. f_equal. lia.
Qed.

Lemma onEach_Ok {W : Type} command callbacks : forall (this : WorkerMessenger W),
  exists this',
    onEach command callbacks this = Ok this' /\
    listenersOf command (messenger_replies this') =
      listenersOf command (messenger_replies this) ++
        persistentRecords (allocated (messenger_replies this)) callbacks /\
    invocations this' = invocations this.
Proof.
  induction callbacks as [| cb callbacks IH]; intros this.
  - exists this. simpl. rewrite app_nil_r. repeat split.
  - cbn [onEach]. unfold on at 1.
    destruct (addListener command cb false (messenger_replies this)) as [b | | | ? ?]
      eqn:Hadd;
      try (rewrite addListener_Ok in Hadd; discriminate).
    simpl. destruct (IH (set_replies b this)) as (this' & E & L & I).
    exists this'. split; [exact E |]. split; [| exact I].
    rewrite L. simpl.
    rewrite (listenersOf_addListener_same _ _ _ _ _ Hadd).
    rewrite (allocated_addListener _ _ _ _ _ Hadd).
    rewrite persistentRecords_cons, <- app_assoc. reflexivity.
Qed.

(** ** What a dispatch invokes *)

Section Snapshot.
Context {W : Type}.
Variable body : Callback -> WorkerMessengerPayload -> Prog W.

Lemma callLoop_snapshot line fuel d data (this this' : WorkerMessenger W) :
  callLoop (applyCallback body fuel) d (listenersOf (command data) (messenger_replies this))
    (payload data) (dispatched line (command data) this) = Ok this' ->
  exists more,
    invocations this' = invocations this ++ more /\
    Forall (fun i => d <= depth i) more /\
    filter (at_depth d) more =
      calls d (payload data) (listenersOf (command data) (messenger_replies this)).
Proof.
  intros H. apply callLoop_calls in H; [exact H |].
  intros d' cb p s s'. apply applyCallback_extends.
Qed.

Lemma worker_invokes_snapshot : invokes_snapshot body onWorkerMessageReceivedFromPage.
Proof.
  intros fuel d data this this' H.
  rewrite onWorkerMessageReceivedFromPage_callLoop in H.
  eapply callLoop_snapshot. exact H.
Qed.

Lemma page_invokes_snapshot : invokes_snapshot body onPageMessageReceivedFromServiceWorker.
Proof.
  intros fuel d data this this' H.
  rewrite onPageMessageReceivedFromServiceWorker_callLoop in H.
  eapply callLoop_snapshot. exact H.
Qed.

Lemma worker_returns_when_quiet : returns_when_quiet body onWorkerMessageReceivedFromPage.
Proof.
  intros fuel d data this Hq.
  rewrite onWorkerMessageReceivedFromPage_callLoop.
  apply (callLoop_quiet body fuel _ d (payload data)
           (dispatched workerLine (command data) this) Hq).
Qed.

Lemma page_returns_when_quiet : returns_when_quiet body onPageMessageReceivedFromServiceWorker.
Proof.
  intros fuel d data this Hq.
  rewrite onPageMessageReceivedFromServiceWorker_callLoop.
  apply (callLoop_quiet body fuel _ d (payload data)
           (dispatched pageLine (command data) this) Hq).
Qed.
End Snapshot.

Lemma persistentRecords_callbacks start callbacks :
  callback <$> persistentRecords start callbacks = callbacks.
Proof.
  revert start. induction callbacks as [| cb callbacks IH]; intros start; [reflexivity |].
  rewrite persistentRecords_cons. simpl. f_equal. apply IH.
Qed.

(** ** A once-only record when its topic is dispatched *)

Lemma once_only_retired_by_pruning command b r :
  well_formed b ->
  r ∈ listenersOf command b -> onceListenerOnly r = true ->
  retired (ref r) (pruned command b).
Proof.
  intros [Hb [_ Hcross]] Hr Honce. split.
  - rewrite allocated_pruned. eapply bounded_listenersOf; eauto.
  - intros (k & l & x & Hk & Hx & E).
    destruct (pruned_lookup_array _ _ _ _ _ Hk Hx) as [[_ H] | [Hne H]].
    + rewrite listenersOf_pruned_same in H. apply list_elem_of_filter in H as [Hsp _].
      apply Hsp. apply list_elem_of_fmap. exists r. split; [exact E |].
      apply list_elem_of_filter. split; [exact Honce | exact Hr].
    + revert E.
      exact (Hcross k (toString command) l (listenersOf command b) x r Hne H
               (listenersOf_lookup _ _ _ Hr) Hx Hr).
Qed.

Lemma listed_once (r : WorkerMessengerReplyBufferRecord)
    (l : list WorkerMessengerReplyBufferRecord) :
  NoDup (ref <$> l) -> r ∈ l -> length (filter (has_ref (ref r)) l) = 1.
Proof.
  induction l as [| x l IH]; intros Hnd Hr.
  - apply elem_of_nil in Hr. contradiction.
  - rewrite fmap_cons in Hnd. apply NoDup_cons in Hnd as [Hx Hnd].
    apply elem_of_cons in Hr as [<- | Hr].
    + rewrite filter_cons_True by reflexivity. simpl. f_equal.
      rewrite filter_drops_all; [reflexivity |].
      intros y Hy E. apply Hx. apply list_elem_of_fmap. exists y. split; [| exact Hy].
      symmetry. exact E.
    + rewrite filter_cons_False; [apply IH; assumption |].
      intros E. apply Hx. apply list_elem_of_fmap. exists r. split; [exact E | exact Hr].
Qed.

Lemma once_registers {W : Type} command cb (this this1 : WorkerMessenger W) :
  well_formed (messenger_replies this) ->
  once command cb this = Ok this1 ->
  well_formed (messenger_replies this1) /\
  listenersOf command (messenger_replies this1) =
    listenersOf command (messenger_replies this) ++
      [{| ref := allocated (messenger_replies this); callback := cb;
          onceListenerOnly := true |}].
Proof.
  intros Hwf H. unfold once in H. apply bind_Ok in H as (b & Hadd & [= <-]). simpl. split.
  - eapply well_formed_addListener; eauto.
  - eapply listenersOf_addListener_same; eauto.
Qed.

(** * The claims *)

(** ** The registry *)

(** C1 (the code at the failing inputs).  On a topic without a listener
    sequence, [deleteListenerRecord] raises a [TypeError] instead of
    doing nothing: the topic was never written (a new buffer, or a buffer
    after [deleteAllListenerRecords]), or it was set to [null] by
    [deleteListenerRecords]. *)
Theorem deleteListenerRecord_without_sequence_throws
    (command : WorkerMessengerCommand) (targetRecord : WorkerMessengerReplyBufferRecord)
    (b : WorkerMessengerReplyBuffer) :
  deleteListenerRecord command targetRecord newReplyBuffer = Throw TypeError /\
  deleteListenerRecord command targetRecord (deleteAllListenerRecords b) = Throw TypeError /\
  deleteListenerRecord command targetRecord (deleteListenerRecords command b) = Throw TypeError.
Proof.
  unfold deleteListenerRecord. simpl. rewrite js_get_empty, js_get_insert.
  destruct (decide (toString command = toString command)); [| congruence].
  repeat split.
Qed.

(** C4.  [findListenersForMessage] returns an array for every topic and
    every registry: the topic's own array when it has one, the empty array
    when the topic was never written or was set to [null]; in particular
    after [deleteListenerRecords] of the topic, after
    [deleteAllListenerRecords] and on a new buffer.  It never returns
    [null] or [undefined]. *)
Theorem findListenersForMessage_returns_array
    (command : WorkerMessengerCommand) (b : WorkerMessengerReplyBuffer) :
  (exists items, findListenersForMessage command b = JsArray items) /\
  findListenersForMessage command b ≠ JsNull /\
  findListenersForMessage command b ≠ JsUndefined /\
  findListenersForMessage command b =
    match js_get (replies b) (toString command) with
    | JsArray items => JsArray items
    | JsUndefined | JsNull => JsArray []
    end /\
  findListenersForMessage command (deleteListenerRecords command b) = JsArray [] /\
  findListenersForMessage command (deleteAllListenerRecords b) = JsArray [] /\
  findListenersForMessage command newReplyBuffer = JsArray [].
Proof.
  unfold findListenersForMessage, js_or. simpl.
  rewrite js_get_empty, js_get_insert.
  destruct (decide (toString command = toString command)); [| congruence].
  destruct (js_get (replies b) (toString command)) as [| | l]; simpl;
    repeat split; eauto; discriminate.
Qed.

(** ** Sending *)

(** C5.  In the worker role, [unicast] without a window client rejects
    with [InvalidArgumentError('windowClient', Empty)]: the [throw] is
    reached before any [await], so the promise the [async] method returns
    is already rejected, and nothing is posted.  With a window client it
    posts [{command, payload}] to that client and to nobody else. *)
Theorem unicast_in_worker
    (first now : Observation) (events : list Observation)
    (controller : option ServiceWorkerObject)
    (command : WorkerMessengerCommand) (payload : WorkerMessengerPayload)
    (client : WindowClient) :
  (promise (unicast ServiceWorker first now events controller command payload None) =
     Rejected (InvalidArgumentError "windowClient" Empty) /\
   suspended (unicast ServiceWorker first now events controller command payload None) =
     false /\
   posted (unicast ServiceWorker first now events controller command payload None) = []) /\
  (promise (unicast ServiceWorker first now events controller command payload
              (Some client)) =
     Fulfilled /\
   posted (unicast ServiceWorker first now events controller command payload
             (Some client)) =
     [(ToWindowClient client, {| command := command; payload := payload |})]).
Proof. repeat split. Qed.

(** C7.  Outside the worker role [broadcast] resolves at once, without an
    error, and posts nothing, whatever clients there are. *)
Theorem broadcast_outside_worker
    (env : WindowEnvironmentKind) (matchAll : list WindowClient)
    (command : WorkerMessengerCommand) (payload : WorkerMessengerPayload) :
  env ≠ ServiceWorker ->
  promise (broadcast env matchAll command payload) = Fulfilled /\
  suspended (broadcast env matchAll command payload) = false /\
  posted (broadcast env matchAll command payload) = [].
Proof.
  intros Hne. unfold broadcast. destruct (decide (env ≠ ServiceWorker)); [| contradiction].
  repeat split.
Qed.

Lemma broadcast_outside_worker_witness :
  Page ≠ ServiceWorker /\
  promise (broadcast Page [{| url := "https://example.com/" |}] Subscribe (PBoolean true))
    = Fulfilled /\
  suspended (broadcast Page [{| url := "https://example.com/" |}] Subscribe (PBoolean true))
    = false /\
  posted (broadcast Page [{| url := "https://example.com/" |}] Subscribe (PBoolean true))
    = [].
Proof.
  split; [discriminate |].
  apply (broadcast_outside_worker Page [{| url := "https://example.com/" |}] Subscribe
           (PBoolean true)).
  discriminate.
Defined.

(** C8.  In the page role [isWorkerControllingPage] answers true exactly
    when the activation state fetched from the context is [WorkerA] or
    [WorkerB]; in the worker role exactly when [self.registration.active]
    is a worker. *)
Theorem isWorkerControllingPage_iff (seen : Observation) :
  (isWorkerControllingPage Page seen = true <->
     workerState seen = WorkerA \/ workerState seen = WorkerB) /\
  (isWorkerControllingPage ServiceWorker seen = true <-> is_Some (active seen)).
Proof.
  unfold isWorkerControllingPage. simpl. split.
  - rewrite orb_true_iff, !bool_decide_eq_true. tauto.
  - destruct (active seen) as [w |]; simpl.
    + split; [eauto | reflexivity].
    + split; [discriminate | intros [w H]; discriminate].
Qed.

(** ** The two receive handlers *)

(** C9.  From one messenger state and on one message the two receive
    handlers end alike: both return, both throw the same error, both
    reject with what the same callback threw, or both run out of fuel;
    and when they return or reject, the registry, the callbacks' state and
    the sequence of callback invocations are the same.  (They log
    different lines.) *)
Theorem receive_handlers_agree {W : Type}
    (body : Callback -> WorkerMessengerPayload -> Prog W)
    (fuel d : nat) (data : WorkerMessengerMessage) (this : WorkerMessenger W) :
  alike same_but_console
    (onWorkerMessageReceivedFromPage (applyCallback body fuel) d data this)
    (onPageMessageReceivedFromServiceWorker (applyCallback body fuel) d data this).
Proof.
  rewrite onWorkerMessageReceivedFromPage_callLoop,
          onPageMessageReceivedFromServiceWorker_callLoop.
  apply dispatch_alike.
  - apply applyCallback_alike.
  - repeat split.
Qed.

(** ** Dispatch *)

(** C10.  Both receive handlers invoke a snapshot: a dispatch that returns
    has itself invoked exactly the records its topic had when it started,
    in their order and with the payload, whatever the callbacks did to the
    registry meanwhile; and when those callbacks only register and
    unregister listeners ([on], [once], [off] of this or any topic, or of
    all topics), the dispatch does return, and these are all the
    invocations there are. *)
Theorem dispatch_invokes_snapshot {W : Type}
    (body : Callback -> WorkerMessengerPayload -> Prog W) :
  invokes_snapshot body onWorkerMessageReceivedFromPage /\
  invokes_snapshot body onPageMessageReceivedFromServiceWorker /\
  returns_when_quiet body onWorkerMessageReceivedFromPage /\
  returns_when_quiet body onPageMessageReceivedFromServiceWorker.
Proof.
  split; [apply worker_invokes_snapshot |].
  split; [apply page_invokes_snapshot |].
  split; [apply worker_returns_when_quiet | apply page_returns_when_quiet].
Qed.

Lemma dispatch_invokes_snapshot_witness :
  exists this',
    onPageMessageReceivedFromServiceWorker (applyCallback exampleBody 1) 0
      exampleMessage exampleUnregistering = Ok this' /\
    invocations this' =
      [ {| depth := 0;
           listener := {| ref := 0; callback := 1; onceListenerOnly := false |};
           argument := PNumber 1 |};
        {| depth := 0;
           listener := {| ref := 1; callback := 0; onceListenerOnly := false |};
           argument := PNumber 1 |} ].
Proof.
  destruct (dispatch_invokes_snapshot exampleBody) as (_ & _ & _ & Hquiet).
  apply (Hquiet 0 0 exampleMessage exampleUnregistering).
  intros x Hx.
  change (x ∈ [ {| ref := 0; callback := 1; onceListenerOnly := false |};
                {| ref := 1; callback := 0; onceListenerOnly := false |} ]) in Hx.
  apply elem_of_cons in Hx as [-> | Hx]; [repeat constructor |].
  apply list_elem_of_singleton in Hx as ->. constructor.
Defined.

(** C3.  After [on(command, cb)] for each callback of a list, in order,
    the topic's records are the ones it had followed by one persistent
    record per registration, in registration order.  One dispatch of the
    topic that returns has itself invoked each of them once, in that
    order, with the payload; it does return when these callbacks do not
    call a receive handler, and then nothing else was invoked. *)
Theorem on_listeners_invoked_in_registration_order {W : Type}
    (body : Callback -> WorkerMessengerPayload -> Prog W)
    (command : WorkerMessengerCommand) (callbacks : list Callback)
    (payload : WorkerMessengerPayload) (this : WorkerMessenger W) :
  let registrations := persistentRecords (allocated (messenger_replies this)) callbacks in
  let snapshot := listenersOf command (messenger_replies this) ++ registrations in
  let data := {| command := command; payload := payload |} in
  callback <$> registrations = callbacks /\
  exists this1,
    onEach command callbacks this = Ok this1 /\
    listenersOf command (messenger_replies this1) = snapshot /\
    (forall fuel d this2,
       onWorkerMessageReceivedFromPage (applyCallback body fuel) d data this1 = Ok this2 ->
       exists more,
         invocations this2 = invocations this ++ more /\
         Forall (fun i => d <= depth i) more /\
         filter (at_depth d) more = calls d payload snapshot) /\
    ((forall x, x ∈ snapshot -> quiet (body (callback x) payload)) ->
     forall fuel d, exists this2,
       onWorkerMessageReceivedFromPage (applyCallback body (S fuel)) d data this1 = Ok this2 /\
       invocations this2 = invocations this ++ calls d payload snapshot).
Proof.
  intros registrations snapshot data.
  split; [apply persistentRecords_callbacks |].
  destruct (onEach_Ok command callbacks this) as (this1 & E & L & I).
  exists this1. split; [exact E |]. split; [exact L |]. split.
  - intros fuel d this2 H.
    apply worker_invokes_snapshot in H. simpl in H. rewrite L, I in H. exact H.
  - intros Hq fuel d.
    destruct (worker_returns_when_quiet body fuel d data this1) as (this2 & E2 & I2).
    { simpl. rewrite L. exact Hq. }
    exists this2. split; [exact E2 |]. simpl in I2. rewrite L, I in I2. exact I2.
Qed.

Lemma on_listeners_invoked_in_registration_order_witness :
  exists this1 this2,
    onEach RedirectPage [0; 1; 0] (newWorkerMessenger tt) = Ok this1 /\
    onWorkerMessageReceivedFromPage (applyCallback exampleBody 1) 0
      {| command := RedirectPage; payload := PString "/inbox" |} this1 = Ok this2 /\
    invocations this2 =
      calls 0 (PString "/inbox")
        [ {| ref := 0; callback := 0; onceListenerOnly := false |};
          {| ref := 1; callback := 1; onceListenerOnly := false |};
          {| ref := 2; callback := 0; onceListenerOnly := false |} ].
Proof.
  destruct (on_listeners_invoked_in_registration_order exampleBody RedirectPage [0; 1; 0]
              (PString "/inbox") (newWorkerMessenger tt))
    as (_ & this1 & E1 & _ & _ & Hquiet).
  destruct (Hquiet ltac:(intros x _; destruct (callback x) as [| [| [| n]]]; repeat constructor)
              0 0) as (this2 & E2 & I2).
  exists this1, this2. split; [exact E1 |]. split; [exact E2 | exact I2].
Defined.

(** C6.  After [off(command)] the topic has no listener and a dispatch of
    it returns without invoking anything; every other topic has the
    records it had, and a dispatch of it runs the third loop over them and,
    when it returns, has itself invoked each of them; it does return, and
    has invoked exactly them, when their callbacks only register and
    unregister listeners.  After [off()] no topic has a listener and a
    dispatch of any topic returns without invoking anything. *)
Theorem off_removes_the_topic_only {W : Type}
    (body : Callback -> WorkerMessengerPayload -> Prog W)
    (fuel d : nat) (topic : WorkerMessengerCommand) (value : WorkerMessengerPayload)
    (this : WorkerMessenger W) :
  (listenersOf topic (messenger_replies (off (Some topic) this)) = [] /\
   onWorkerMessageReceivedFromPage (applyCallback body fuel) d
     {| command := topic; payload := value |} (off (Some topic) this)
   = Ok (log_debug workerLine (off (Some topic) this))) /\
  (forall other, other ≠ topic ->
     listenersOf other (messenger_replies (off (Some topic) this)) =
       listenersOf other (messenger_replies this) /\
     onWorkerMessageReceivedFromPage (applyCallback body fuel) d
       {| command := other; payload := value |} (off (Some topic) this)
     = callLoop (applyCallback body fuel) d (listenersOf other (messenger_replies this)) value
         (dispatched workerLine other (off (Some topic) this)) /\
     forall this',
       onWorkerMessageReceivedFromPage (applyCallback body fuel) d
         {| command := other; payload := value |} (off (Some topic) this) = Ok this' ->
       exists more,
         invocations this' = invocations this ++ more /\
         filter (at_depth d) more = calls d value (listenersOf other (messenger_replies this))) /\
  (forall other, other ≠ topic ->
     (forall x, x ∈ listenersOf other (messenger_replies this) ->
                quiet (body (callback x) value)) ->
     exists this',
       onWorkerMessageReceivedFromPage (applyCallback body (S fuel)) d
         {| command := other; payload := value |} (off (Some topic) this) = Ok this' /\
       invocations this' =
         invocations this ++ calls d value (listenersOf other (messenger_replies this))) /\
  (forall any,
     listenersOf any (messenger_replies (off None this)) = [] /\
     onWorkerMessageReceivedFromPage (applyCallback body fuel) d
       {| command := any; payload := value |} (off None this)
     = Ok (log_debug workerLine (off None this))).
Proof.
  assert (listenersOf topic (messenger_replies (off (Some topic) this)) = []) as Hsame.
  { simpl. unfold deleteListenerRecords. rewrite listenersOf_insert.
    destruct (decide (toString topic = toString topic)); [reflexivity | congruence]. }
  assert (forall any, listenersOf any (messenger_replies (off None this)) = []) as Hall.
  { intros any. simpl. unfold listenersOf. simpl. rewrite js_get_empty. reflexivity. }
  assert (forall other, other ≠ topic ->
            listenersOf other (messenger_replies (off (Some topic) this)) =
            listenersOf other (messenger_replies this)) as Hkept.
  { intros other Hne. simpl. unfold deleteListenerRecords. rewrite listenersOf_insert.
    destruct (decide (toString topic = toString other)) as [E | E].
    - apply toString_inj in E. congruence.
    - destruct (messenger_replies this); reflexivity. }
  split; [| split; [| split]].
  - split; [exact Hsame |].
    rewrite onWorkerMessageReceivedFromPage_callLoop. cbn [command payload].
    rewrite Hsame. simpl. unfold dispatched, pruned. simpl. rewrite js_get_insert.
    destruct (decide (toString topic = toString topic)); [reflexivity | congruence].
  - intros other Hne.
    assert (listenersOf other (messenger_replies (off (Some topic) this)) =
            listenersOf other (messenger_replies this)) as Hother.
    { simpl. unfold deleteListenerRecords. rewrite listenersOf_insert.
      destruct (decide (toString topic = toString other)) as [E | E].
      - apply toString_inj in E. congruence.
      - destruct (messenger_replies this); reflexivity. }
    split; [exact Hother |]. split.
    + rewrite onWorkerMessageReceivedFromPage_callLoop.
      cbn [command payload]. rewrite Hother. reflexivity.
    + intros this' H. apply worker_invokes_snapshot in H as (more & E & _ & C).
      exists more. cbn [command payload] in C. rewrite Hother in C.
      split; [exact E | exact C].
  - intros other Hne Hquiet.
    destruct (worker_returns_when_quiet body fuel d {| command := other; payload := value |}
                (off (Some topic) this)) as (this' & E & I).
    { cbn [command payload]. rewrite (Hkept other Hne). exact Hquiet. }
    exists this'. split; [exact E |].
    cbn [command payload] in I. rewrite (Hkept other Hne) in I. exact I.
  - intros any. split; [apply Hall |].
    rewrite onWorkerMessageReceivedFromPage_callLoop. cbn [command payload].
    rewrite Hall. simpl. unfold dispatched, pruned. simpl. rewrite js_get_empty. reflexivity.
Qed.

Lemma off_removes_the_topic_only_witness :
  Subscribe ≠ NotificationDisplayed /\
  listenersOf NotificationDisplayed
    (messenger_replies (off (Some NotificationDisplayed) exampleUnregistering)) = [] /\
  listenersOf Subscribe
    (messenger_replies (off (Some NotificationDisplayed) exampleUnregistering)) =
    listenersOf Subscribe (messenger_replies exampleUnregistering) /\
  listenersOf Subscribe (messenger_replies exampleUnregistering) =
    [ {| ref := 2; callback := 0; onceListenerOnly := false |} ] /\
  exists this',
    onWorkerMessageReceivedFromPage (applyCallback exampleBody 1) 0
      {| command := Subscribe; payload := PNumber 1 |}
      (off (Some NotificationDisplayed) exampleUnregistering) = Ok this' /\
    invocations this' =
      [ {| depth := 0;
           listener := {| ref := 2; callback := 0; onceListenerOnly := false |};
           argument := PNumber 1 |} ].
Proof.
  destruct (off_removes_the_topic_only exampleBody 0 0 NotificationDisplayed (PNumber 1)
              exampleUnregistering) as ((Hsame & _) & Hother & Hreturns & _).
  split; [discriminate |]. split; [exact Hsame |].
  split; [apply (Hother Subscribe); discriminate |].
  split; [reflexivity |].
  apply (Hreturns Subscribe); [discriminate |].
  intros x Hx.
  change (x ∈ [ {| ref := 2; callback := 0; onceListenerOnly := false |} ]) in Hx.
  apply list_elem_of_singleton in Hx as ->. constructor.
Defined.

(** C2.  [once(topic, cb)] adds to a well-formed registry a once-only
    record of a new identity, last in the topic's sequence.  Let a
    once-only record [r] be registered for the topic when a dispatch of
    the topic starts, and let the dispatch return.  The handler is its
    third loop run from a state in which no once-only record of the topic
    is registered any more and in which nothing was invoked yet.  During
    the dispatch, re-entrant dispatches included, [r] is invoked exactly
    once: by this dispatch itself, with its payload.  Whatever is called
    on the messenger afterwards, [r] is not invoked again. *)
Theorem once_listener_invoked_by_first_dispatch_only {W : Type}
    (body : Callback -> WorkerMessengerPayload -> Prog W)
    (topic : WorkerMessengerCommand) (cb : Callback) (value : WorkerMessengerPayload)
    (fuel d : nat) :
  let data := {| command := topic; payload := value |} in
  (forall this this1 : WorkerMessenger W,
     well_formed (messenger_replies this) ->
     once topic cb this = Ok this1 ->
     well_formed (messenger_replies this1) /\
     listenersOf topic (messenger_replies this1) =
       listenersOf topic (messenger_replies this) ++
         [{| ref := allocated (messenger_replies this); callback := cb;
             onceListenerOnly := true |}]) /\
  (forall (r : WorkerMessengerReplyBufferRecord) (this this2 : WorkerMessenger W),
     well_formed (messenger_replies this) ->
     r ∈ listenersOf topic (messenger_replies this) ->
     onceListenerOnly r = true ->
     onWorkerMessageReceivedFromPage (applyCallback body fuel) d data this = Ok this2 ->
     (onWorkerMessageReceivedFromPage (applyCallback body fuel) d data this =
        callLoop (applyCallback body fuel) d (listenersOf topic (messenger_replies this)) value
          (dispatched workerLine topic this) /\
      (forall x, x ∈ listenersOf topic (messenger_replies (dispatched workerLine topic this)) ->
                 onceListenerOnly x = false) /\
      invocations (dispatched workerLine topic this) = invocations this) /\
     (timesInvoked (ref r) this2 = timesInvoked (ref r) this + 1 /\
      exists more,
        invocations this2 = invocations this ++ more /\
        {| depth := d; listener := r; argument := value |} ∈ more) /\
     (forall fuel' d' later this3,
        interp (applyCallback body fuel') d' later this2 = Ok this3 ->
        timesInvoked (ref r) this3 = timesInvoked (ref r) this2)).
Proof.
  intros data. split; [intros this this1; apply once_registers |].
  intros r this this2 Hwf Hr Honce Hrun.
  pose proof (once_only_retired_by_pruning _ _ _ Hwf Hr Honce) as Hret.
  pose proof (listed_once r _ (distinct_listenersOf topic _ (proj2 Hwf)) Hr) as Hcount.
  pose proof (well_formed_pruned topic _ Hwf) as Hwfp.
  pose proof Hrun as Hloop. rewrite onWorkerMessageReceivedFromPage_callLoop in Hloop.
  change (callLoop (applyCallback body fuel) d (listenersOf topic (messenger_replies this)) value
            (dispatched workerLine topic this) = Ok this2) in Hloop.
  destruct (callLoop_retired (applyCallback body fuel) (applyCallback_keeps_retired body fuel)
              _ _ _ (dispatched workerLine topic this) _ Hwfp Hloop)
    as [Hwf2 Hkeep].
  destruct (Hkeep _ Hret) as [Hret2 Htimes].
  split; [| split].
  - split; [apply onWorkerMessageReceivedFromPage_callLoop |]. split; [| reflexivity].
    intros x Hx. simpl in Hx. apply pruned_no_once_only in Hx as [_ Hx]. exact Hx.
  - split.
    + rewrite Htimes, Hcount. reflexivity.
    + apply worker_invokes_snapshot in Hrun as (more & E & _ & C).
      exists more. split; [exact E |].
      assert ({| depth := d; listener := r; argument := value |} ∈ filter (at_depth d) more)
        as Hin.
      { rewrite C. unfold calls. apply list_elem_of_fmap. exists r. split; [reflexivity |].
        exact Hr. }
      apply list_elem_of_filter in Hin as [_ Hin]. exact Hin.
  - intros fuel' d' later this3 Hlater.
    destruct (interp_keeps_retired (applyCallback body fuel')
                (applyCallback_keeps_retired body fuel') later d' this2 this3 Hwf2 Hlater)
      as [_ Hkeep3].
    apply (Hkeep3 _ Hret2).
Qed.

Lemma once_listener_invoked_by_first_dispatch_only_witness :
  well_formed (messenger_replies exampleRedispatching) /\
  once NotificationDisplayed 0 exampleRedispatching = Ok exampleOnce /\
  onWorkerMessageReceivedFromPage (applyCallback exampleBody 3) 0 exampleMessage exampleOnce
    = Ok exampleDispatched /\
  listenersOf NotificationDisplayed (messenger_replies exampleOnce) =
    [ {| ref := 0; callback := 2; onceListenerOnly := false |};
      {| ref := 1; callback := 0; onceListenerOnly := true |} ] /\
  timesInvoked 1 exampleDispatched = timesInvoked 1 exampleOnce + 1 /\
  length (invocations exampleDispatched) = 3.
Proof.
  assert (well_formed (messenger_replies exampleRedispatching)) as Hwf.
  { apply (well_formed_addListener NotificationDisplayed 2 false newReplyBuffer);
      [apply well_formed_new | reflexivity]. }
  assert (once NotificationDisplayed 0 exampleRedispatching = Ok exampleOnce) as Honce
    by reflexivity.
  assert (onWorkerMessageReceivedFromPage (applyCallback exampleBody 3) 0 exampleMessage
            exampleOnce = Ok exampleDispatched) as Hrun by reflexivity.
  split; [exact Hwf |]. split; [exact Honce |]. split; [exact Hrun |].
  split; [reflexivity |]. split; [| reflexivity].
  destruct (once_listener_invoked_by_first_dispatch_only exampleBody NotificationDisplayed 0
              (PNumber 1) 3 0) as [Hreg Hdisp].
  destruct (Hreg exampleRedispatching exampleOnce Hwf Honce) as [Hwf1 _].
  destruct (Hdisp {| ref := 1; callback := 0; onceListenerOnly := true |}
              exampleOnce exampleDispatched Hwf1 ltac:(right; left) eq_refl Hrun)
    as (_ & (Htimes & _) & _).
  exact Htimes.
Defined.

(** * Further properties of the code *)

(** ** Helper lemmas *)

Lemma filter_agree {A : Type} (P Q : A -> Prop)
    `{!forall x, Decision (P x)} `{!forall x, Decision (Q x)} (l : list A) :
  (forall x, x ∈ l -> (P x <-> Q x)) -> filter P l = filter Q l.
Proof.
  induction l as [| x l IH]; intros Hagree; [reflexivity |].
  assert (filter P l = filter Q l) as E.
  { apply IH. intros y Hy. apply Hagree. right. exact Hy. }
  destruct (decide (P x)) as [Hp | Hp].
  - rewrite (filter_cons_True P) by exact Hp.
    rewrite (filter_cons_True Q) by (apply Hagree; [left | exact Hp]).
    rewrite E. reflexivity.
  - rewrite (filter_cons_False P) by exact Hp.
    rewrite (filter_cons_False Q) by (intros Hq; apply Hp, Hagree; [left | exact Hq]).
    exact E.
Qed.

Lemma same_ref_same_record (l : list WorkerMessengerReplyBufferRecord) x y :
  NoDup (ref <$> l) -> x ∈ l -> y ∈ l -> ref x = ref y -> x = y.
Proof.
  induction l as [| z l IH]; intros Hnd Hx Hy E.
  - apply elem_of_nil in Hx. contradiction.
  - rewrite fmap_cons in Hnd. apply NoDup_cons in Hnd as [Hz Hnd].
    apply elem_of_cons in Hx as [-> | Hx]; apply elem_of_cons in Hy as [-> | Hy].
    + reflexivity.
    + exfalso. apply Hz. apply list_elem_of_fmap. exists y. split; [exact E | exact Hy].
    + exfalso. apply Hz. apply list_elem_of_fmap. exists x. split; [congruence | exact Hx].
    + apply IH; assumption.
Qed.

Lemma filter_spared_persistent (l : list WorkerMessengerReplyBufferRecord) :
  NoDup (ref <$> l) -> filter (spared (filter once_only l)) l = filter persistent l.
Proof.
  intros Hnd. apply filter_agree. intros x Hx. unfold spared, persistent. split.
  - intros Hsp. destruct (onceListenerOnly x) eqn:E; [| reflexivity].
    exfalso. apply Hsp. apply list_elem_of_fmap. exists x. split; [reflexivity |].
    apply list_elem_of_filter. split; [exact E | exact Hx].
  - intros Hp Hin. apply list_elem_of_fmap in Hin as (y & E & Hy).
    apply list_elem_of_filter in Hy as [Honce Hy].
    assert (x = y) as -> by (eapply same_ref_same_record; eauto).
    unfold once_only in Honce. congruence.
Qed.

Lemma pruned_no_listeners command b : listenersOf command b = [] -> pruned command b = b.
Proof.
  unfold pruned, listenersOf. intros H.
  destruct (js_get (replies b) (toString command)) as [| | l] eqn:E; try reflexivity.
  subst l. simpl. rewrite insert_id by (apply js_get_array_lookup; exact E).
  destruct b; reflexivity.
Qed.

Lemma deleteListenerRecord_Ok_array command targetRecord b b' :
  deleteListenerRecord command targetRecord b = Ok b' ->
  exists l, js_get (replies b) (toString command) = JsArray l.
Proof.
  unfold deleteListenerRecord.
  destruct (js_get (replies b) (toString command)) as [| | l]; simpl;
    intros H; try discriminate.
  eauto.
Qed.

Lemma well_formed_deleteListenerRecord command targetRecord b b' :
  well_formed b -> deleteListenerRecord command targetRecord b = Ok b' -> well_formed b'.
Proof.
  intros [Hb [Hnd Hcross]] H.
  destruct (deleteListenerRecord_Ok_array _ _ _ _ H) as [l Hl].
  rewrite (deleteListenerRecord_array _ _ _ l Hl) in H. injection H as <-.
  pose proof (js_get_array_lookup _ _ _ Hl) as Hlook.
  split; [| split]; simpl.
  - intros k l' x Hk Hx. simpl in Hk. rewrite lookup_insert in Hk.
    destruct (decide (toString command = k)) as [Ek | Hne].
    + injection Hk as <-. apply list_elem_of_filter in Hx as [_ Hx].
      exact (Hb _ _ _ Hlook Hx).
    + exact (Hb _ _ _ Hk Hx).
  - intros k l' Hk. simpl in Hk. rewrite lookup_insert in Hk.
    destruct (decide (toString command = k)) as [Ek | Hne].
    + injection Hk as <-. apply NoDup_refs_filter. exact (Hnd _ _ Hlook).
    + exact (Hnd _ _ Hk).
  - intros k1 k2 l1 l2 x y Hne H1 H2 Hx Hy. simpl in H1, H2.
    rewrite lookup_insert in H1, H2.
    destruct (decide (toString command = k1)) as [E1 | N1];
      destruct (decide (toString command = k2)) as [E2 | N2].
    + congruence.
    + injection H1 as <-. apply list_elem_of_filter in Hx as [_ Hx]. subst k1.
      exact (Hcross _ k2 l l2 x y Hne Hlook H2 Hx Hy).
    + injection H2 as <-. apply list_elem_of_filter in Hy as [_ Hy]. subst k2.
      exact (Hcross k1 _ l1 l x y Hne H1 Hlook Hx Hy).
    + exact (Hcross k1 k2 l1 l2 x y Hne H1 H2 Hx Hy).
Qed.

(** ** The registry *)

(** X1.  On a topic that has an array, [deleteListenerRecord] removes
    every element identical to the target, also elements next to each
    other, and keeps the others in their order; the other topics and the
    count of created records are untouched. *)
Theorem deleteListenerRecord_removes_every_match
    (command : WorkerMessengerCommand) (targetRecord : WorkerMessengerReplyBufferRecord)
    (b : WorkerMessengerReplyBuffer) (l : list WorkerMessengerReplyBufferRecord) :
  js_get (replies b) (toString command) = JsArray l ->
  exists b',
    deleteListenerRecord command targetRecord b = Ok b' /\
    findListenersForMessage command b' = JsArray (filter (other_than targetRecord) l) /\
    (forall other, other ≠ command ->
                   findListenersForMessage other b' = findListenersForMessage other b) /\
    allocated b' = allocated b.
Proof.
  intros Hl. rewrite (deleteListenerRecord_array _ _ _ l Hl). eexists. split; [reflexivity |].
  split; [| split; [| reflexivity]].
  - rewrite findListenersForMessage_listenersOf, listenersOf_insert.
    destruct (decide (toString command = toString command)); [reflexivity | congruence].
  - intros other Hne. rewrite !findListenersForMessage_listenersOf, listenersOf_insert.
    destruct (decide (toString command = toString other)) as [E | E].
    + apply toString_inj in E. congruence.
    + destruct b; reflexivity.
Qed.

Lemma deleteListenerRecord_removes_every_match_witness :
  exists b',
    deleteListenerRecord Subscribe {| ref := 0; callback := 7; onceListenerOnly := true |}
      exampleRepeated = Ok b' /\
    findListenersForMessage Subscribe b' =
      JsArray [ {| ref := 1; callback := 8; onceListenerOnly := false |} ].
Proof.
  destruct (deleteListenerRecord_removes_every_match Subscribe
              {| ref := 0; callback := 7; onceListenerOnly := true |} exampleRepeated
              [ {| ref := 0; callback := 7; onceListenerOnly := true |};
                {| ref := 0; callback := 7; onceListenerOnly := true |};
                {| ref := 1; callback := 8; onceListenerOnly := false |};
                {| ref := 0; callback := 7; onceListenerOnly := true |} ]
              eq_refl) as (b' & E & L & _).
  exists b'. split; [exact E | exact L].
Defined.

(** X2.  On a topic that has an array without an element identical to
    the target (an empty array included), [deleteListenerRecord] returns
    and leaves the whole buffer as it was. *)
Theorem deleteListenerRecord_of_absent_record
    (command : WorkerMessengerCommand) (targetRecord : WorkerMessengerReplyBufferRecord)
    (b : WorkerMessengerReplyBuffer) (l : list WorkerMessengerReplyBufferRecord) :
  js_get (replies b) (toString command) = JsArray l ->
  (forall x, x ∈ l -> ref x ≠ ref targetRecord) ->
  deleteListenerRecord command targetRecord b = Ok b.
Proof.
  intros Hl Habsent. rewrite (deleteListenerRecord_array _ _ _ l Hl).
  rewrite (filter_keeps_all (other_than targetRecord) l Habsent).
  rewrite insert_id by (apply js_get_array_lookup; exact Hl).
  destruct b; reflexivity.
Qed.

Lemma deleteListenerRecord_of_absent_record_witness :
  deleteListenerRecord Subscribe {| ref := 5; callback := 7; onceListenerOnly := true |}
    exampleRepeated = Ok exampleRepeated.
Proof.
  apply (deleteListenerRecord_of_absent_record Subscribe
           {| ref := 5; callback := 7; onceListenerOnly := true |} exampleRepeated
           [ {| ref := 0; callback := 7; onceListenerOnly := true |};
             {| ref := 0; callback := 7; onceListenerOnly := true |};
             {| ref := 1; callback := 8; onceListenerOnly := false |};
             {| ref := 0; callback := 7; onceListenerOnly := true |} ]
           eq_refl).
  intros x Hx. repeat (apply elem_of_cons in Hx as [-> | Hx]; [simpl; lia |]).
  apply elem_of_nil in Hx. contradiction.
Defined.

(** X3.  [addListener] never throws, whatever the topic's slot holds
    ([undefined], [null], an empty or a non-empty array): afterwards
    [findListenersForMessage] gives the records it gave before followed
    by the new record, which has a new identity; the other topics are
    untouched. *)
Theorem addListener_appends
    (command : WorkerMessengerCommand) (cb : Callback) (flag : bool)
    (b : WorkerMessengerReplyBuffer) :
  exists b',
    addListener command cb flag b = Ok b' /\
    (forall items,
       findListenersForMessage command b = JsArray items ->
       findListenersForMessage command b' =
         JsArray (items ++ [{| ref := allocated b; callback := cb;
                               onceListenerOnly := flag |}])) /\
    (forall other, other ≠ command ->
                   findListenersForMessage other b' = findListenersForMessage other b) /\
    allocated b' = S (allocated b).
Proof.
  destruct (addListener command cb flag b) as [b' | | | ? ?] eqn:Hadd;
    try (rewrite addListener_Ok in Hadd; discriminate).
  exists b'. split; [reflexivity |]. split; [| split].
  - intros items Hitems. rewrite findListenersForMessage_listenersOf in *.
    injection Hitems as <-. f_equal. eapply listenersOf_addListener_same. exact Hadd.
  - intros other Hne. rewrite !findListenersForMessage_listenersOf. f_equal.
    eapply listenersOf_addListener_other; eauto.
  - eapply allocated_addListener. exact Hadd.
Qed.

Lemma addListener_appends_witness :
  exists b',
    addListener Subscribe 4 false (deleteListenerRecords Subscribe exampleRepeated) = Ok b' /\
    findListenersForMessage Subscribe b' =
      JsArray [ {| ref := 2; callback := 4; onceListenerOnly := false |} ] /\
    findListenersForMessage AmpSubscribe b' = JsArray [].
Proof.
  destruct (addListener_appends Subscribe 4 false
              (deleteListenerRecords Subscribe exampleRepeated))
    as (b' & E & Hsame & Hother & _).
  exists b'. split; [exact E |]. split.
  - apply (Hsame []). reflexivity.
  - rewrite (Hother AmpSubscribe) by discriminate. reflexivity.
Defined.

(** X4.  The registry stays well formed: in a new messenger, and after
    any calls of [on], [once], [off] and the receive handlers, with any
    callbacks, that return, no identity occurs twice in the registry (in
    one topic's array or in two), and every identity in it is one that
    [addListener] has given out.  [deleteListenerRecord] keeps this too. *)
Theorem registry_stays_well_formed {W : Type}
    (body : Callback -> WorkerMessengerPayload -> Prog W) (w : W) :
  well_formed (messenger_replies (newWorkerMessenger w)) /\
  (forall fuel d code (this this' : WorkerMessenger W),
     well_formed (messenger_replies this) ->
     interp (applyCallback body fuel) d code this = Ok this' ->
     well_formed (messenger_replies this') /\
     forall command, NoDup (ref <$> listenersOf command (messenger_replies this'))) /\
  (forall command targetRecord b b',
     well_formed b -> deleteListenerRecord command targetRecord b = Ok b' -> well_formed b').
Proof.
  split; [apply well_formed_new |]. split.
  - intros fuel d code this this' Hwf H.
    destruct (interp_keeps_retired (applyCallback body fuel)
                (applyCallback_keeps_retired body fuel) code d this this' Hwf H) as [Hwf' _].
    split; [exact Hwf' |]. intros command. apply distinct_listenersOf. apply Hwf'.
  - intros command targetRecord b b'. apply well_formed_deleteListenerRecord.
Qed.

Lemma registry_stays_well_formed_witness :
  interp (applyCallback exampleBody 3) 0
    (Do (CallOn NotificationDisplayed 2)
       (Do (CallOnce NotificationDisplayed 0)
          (Do (CallOnWorkerMessageReceivedFromPage exampleMessage) Return)))
    (newWorkerMessenger tt) = Ok exampleDispatched /\
  well_formed (messenger_replies exampleDispatched).
Proof.
  assert (interp (applyCallback exampleBody 3) 0
            (Do (CallOn NotificationDisplayed 2)
               (Do (CallOnce NotificationDisplayed 0)
                  (Do (CallOnWorkerMessageReceivedFromPage exampleMessage) Return)))
            (newWorkerMessenger tt) = Ok exampleDispatched) as Hrun by reflexivity.
  split; [exact Hrun |].
  destruct (registry_stays_well_formed exampleBody tt) as (Hnew & Hkeep & _).
  destruct (Hkeep 3 0 _ _ _ Hnew Hrun) as [Hwf _]. exact Hwf.
Defined.

(** ** Dispatch with callbacks that leave the messenger alone *)

Section Detached.
Context {W : Type}.
Variable body : Callback -> WorkerMessengerPayload -> Prog W.

Lemma interp_detached apply code :
  detached code -> forall d (this : WorkerMessenger W),
    exists this', interp apply d code this = Ok this' /\
                  messenger_replies this' = messenger_replies this /\
                  invocations this' = invocations this.
Proof.
  induction 1 as [| next _ IH | w next _ IH]; intros d this; simpl.
  - eauto.
  - apply IH.
  - destruct (IH d (set_closure w this)) as (this' & E & R & I). eauto.
Qed.

Lemma callLoop_detached fuel l : forall d p (this : WorkerMessenger W),
  (forall x, x ∈ l -> detached (body (callback x) p)) ->
  exists this', callLoop (applyCallback body (S fuel)) d l p this = Ok this' /\
                messenger_replies this' = messenger_replies this /\
                invocations this' = invocations this ++ calls d p l.
Proof.
  induction l as [| x l IH]; intros d p this Hd.
  - exists this. rewrite app_nil_r. repeat split.
  - cbn [callLoop applyCallback].
    destruct (interp_detached (applyCallback body fuel) (body (callback x) p)
                (Hd x ltac:(left)) (S d)
                (record_invocation {| depth := d; listener := x; argument := p |} this))
      as (this1 & E1 & R1 & I1).
    rewrite E1. simpl.
    destruct (IH d p this1 ltac:(intros y Hy; apply Hd; right; exact Hy))
      as (this' & E' & R' & I').
    exists this'. split; [exact E' |]. split; [rewrite R', R1; reflexivity |].
    rewrite I', I1. simpl. rewrite <- app_assoc. reflexivity.
Qed.

Lemma dispatch_detached fuel d data (this : WorkerMessenger W) :
  (forall x, x ∈ listenersOf (command data) (messenger_replies this) ->
             detached (body (callback x) (payload data))) ->
  exists this',
    onWorkerMessageReceivedFromPage (applyCallback body (S fuel)) d data this = Ok this' /\
    messenger_replies this' = pruned (command data) (messenger_replies this) /\
    invocations this' =
      invocations this ++
        calls d (payload data) (listenersOf (command data) (messenger_replies this)).
Proof.
  intros Hd. rewrite onWorkerMessageReceivedFromPage_callLoop.
  apply (callLoop_detached fuel _ d (payload data)
           (dispatched workerLine (command data) this) Hd).
Qed.
End Detached.

Lemma listenersOf_pruned_persistent command b :
  well_formed b ->
  listenersOf command (pruned command b) = filter persistent (listenersOf command b).
Proof.
  intros [_ Hd]. rewrite listenersOf_pruned_same. apply filter_spared_persistent.
  apply distinct_listenersOf. exact Hd.
Qed.

Lemma retired_by_deleteListenerRecords command b r :
  well_formed b -> r ∈ listenersOf command b ->
  retired (ref r) (deleteListenerRecords command b).
Proof.
  intros [Hb [_ Hcross]] Hr. split.
  - simpl. eapply bounded_listenersOf; eauto.
  - intros (k & l & x & Hk & Hx & E). simpl in Hk. rewrite lookup_insert in Hk.
    destruct (decide (toString command = k)) as [Ek | Hne]; [discriminate |].
    revert E.
    exact (Hcross k (toString command) l (listenersOf command b) x r ltac:(congruence) Hk
             (listenersOf_lookup _ _ _ Hr) Hx Hr).
Qed.

Lemma retired_by_deleteAllListenerRecords command b r :
  well_formed b -> r ∈ listenersOf command b ->
  retired (ref r) (deleteAllListenerRecords b).
Proof.
  intros [Hb _] Hr. split.
  - simpl. eapply bounded_listenersOf; eauto.
  - intros (k & l & x & Hk & _). simpl in Hk. rewrite lookup_empty in Hk. discriminate.
Qed.

Lemma exampleScenario_well_formed : well_formed (messenger_replies exampleScenario).
Proof.
  apply (well_formed_addListener NotificationDisplayed 3 false
           {| replies := {[ toString NotificationDisplayed :=
                              JsArray [ {| ref := 0; callback := 0;
                                           onceListenerOnly := true |} ] ]};
              allocated := 1 |}); [| reflexivity].
  apply (well_formed_addListener NotificationDisplayed 0 true newReplyBuffer);
    [apply well_formed_new | reflexivity].
Qed.

Lemma exampleUnregistering_well_formed :
  well_formed (messenger_replies exampleUnregistering).
Proof.
  refine (proj1 (interp_keeps_retired (applyCallback exampleBody 0)
                   (applyCallback_keeps_retired exampleBody 0)
                   (Do (CallOn NotificationDisplayed 1)
                      (Do (CallOn NotificationDisplayed 0)
                         (Do (CallOn Subscribe 0) Return)))
                   0 (newWorkerMessenger tt) exampleUnregistering well_formed_new _)).
  reflexivity.
Qed.

(** ** The messenger *)

Section NoRaise.
Context {W : Type}.
Variable body : Callback -> WorkerMessengerPayload -> Prog W.

Lemma interp_no_raise apply code :
  calm code -> forall d (this : WorkerMessenger W) e this',
    interp apply d code this ≠ Raised e this'.
Proof.
  induction 1 as [| call next _ IH | next _ IH | w next _ IH]; intros d this e this';
    cbn [interp].
  - discriminate.
  - destruct (perform apply d call this) as [this1 | e1 | | e1 this1] eqn:E; simpl.
    + apply IH.
    + discriminate.
    + discriminate.
    + exfalso. eapply perform_not_Raised. exact E.
  - apply IH.
  - apply IH.
Qed.

Lemma applyCallback_no_raise fuel d cb p (this : WorkerMessenger W) e this' :
  calm (body cb p) -> applyCallback body fuel d cb p this ≠ Raised e this'.
Proof.
  intros Hcalm. destruct fuel as [| fuel]; simpl; [discriminate |].
  apply interp_no_raise. exact Hcalm.
Qed.

Lemma callLoop_no_raise fuel l : forall d p (this : WorkerMessenger W) e this',
  (forall x, x ∈ l -> calm (body (callback x) p)) ->
  callLoop (applyCallback body fuel) d l p this ≠ Raised e this'.
Proof.
  induction l as [| x l IH]; intros d p this e this' Hcalm; cbn [callLoop];
    [discriminate |].
  destruct (applyCallback body fuel (S d) (callback x) p
              (record_invocation {| depth := d; listener := x; argument := p |} this))
    as [this1 | e1 | | e1 this1] eqn:E; simpl.
  - apply IH. intros y Hy. apply Hcalm. right. exact Hy.
  - discriminate.
  - discriminate.
  - exfalso. eapply applyCallback_no_raise; [apply Hcalm; left | exact E].
Qed.
End NoRaise.

(** X5.  The statements of the messenger itself never raise: no call of
    [on], [once], [off] or of a receive handler, and no sequence of them,
    ends in an error of the library, whatever the registry holds and
    whatever the callbacks do (the unguarded [deleteListenerRecord] is only
    reached for a topic that has an array).  So the promise of a receive
    handler does not reject unless one of the callbacks it calls itself
    throws. *)
Theorem messenger_never_throws {W : Type}
    (body : Callback -> WorkerMessengerPayload -> Prog W)
    (fuel d : nat) (data : WorkerMessengerMessage) (code : Prog W)
    (this : WorkerMessenger W) :
  (forall e,
     onWorkerMessageReceivedFromPage (applyCallback body fuel) d data this ≠ Throw e /\
     onPageMessageReceivedFromServiceWorker (applyCallback body fuel) d data this ≠ Throw e /\
     interp (applyCallback body fuel) d code this ≠ Throw e) /\
  ((forall x, x ∈ listenersOf (command data) (messenger_replies this) ->
              calm (body (callback x) (payload data))) ->
   forall e this',
     onWorkerMessageReceivedFromPage (applyCallback body fuel) d data this ≠ Raised e this' /\
     onPageMessageReceivedFromServiceWorker (applyCallback body fuel) d data this
       ≠ Raised e this').
Proof.
  split.
  - intros e. split; [| split].
    + rewrite onWorkerMessageReceivedFromPage_callLoop.
      apply callLoop_no_throw, applyCallback_no_throw.
    + rewrite onPageMessageReceivedFromServiceWorker_callLoop.
      apply callLoop_no_throw, applyCallback_no_throw.
    + apply interp_no_throw, applyCallback_no_throw.
  - intros Hcalm e this'. split.
    + rewrite onWorkerMessageReceivedFromPage_callLoop.
      apply callLoop_no_raise. exact Hcalm.
    + rewrite onPageMessageReceivedFromServiceWorker_callLoop.
      apply callLoop_no_raise. exact Hcalm.
Qed.

Lemma messenger_never_throws_witness :
  onWorkerMessageReceivedFromPage (applyCallback exampleBody 3) 0 exampleMessage exampleOnce
    ≠ Raised (Thrown "boom") exampleOnce.
Proof.
  destruct (messenger_never_throws exampleBody 3 0 exampleMessage Return exampleOnce)
    as [_ Hcalm].
  apply Hcalm.
  intros x Hx.
  change (x ∈ [ {| ref := 0; callback := 2; onceListenerOnly := false |};
                {| ref := 1; callback := 0; onceListenerOnly := true |} ]) in Hx.
  apply elem_of_cons in Hx as [-> | Hx]; [repeat constructor |].
  apply list_elem_of_singleton in Hx as ->. constructor.
Defined.

(** X6.  A message whose topic has no listener (the slot was never
    written, is [null] or is an empty array) is discarded: each handler
    returns, has logged its line and has changed nothing else; no callback
    is called. *)
Theorem message_without_listener_is_discarded {W : Type}
    (body : Callback -> WorkerMessengerPayload -> Prog W)
    (fuel d : nat) (data : WorkerMessengerMessage) (this : WorkerMessenger W) :
  findListenersForMessage (command data) (messenger_replies this) = JsArray [] ->
  onWorkerMessageReceivedFromPage (applyCallback body fuel) d data this =
    Ok (log_debug workerLine this) /\
  onPageMessageReceivedFromServiceWorker (applyCallback body fuel) d data this =
    Ok (log_debug pageLine this).
Proof.
  rewrite findListenersForMessage_listenersOf. intros [= Hnone].
  rewrite onWorkerMessageReceivedFromPage_callLoop,
          onPageMessageReceivedFromServiceWorker_callLoop.
  unfold dispatched. rewrite Hnone, (pruned_no_listeners _ _ Hnone). simpl.
  split; reflexivity.
Qed.

Lemma message_without_listener_is_discarded_witness :
  onWorkerMessageReceivedFromPage (applyCallback exampleBody 0) 0
    {| command := RedirectPage; payload := PString "/inbox" |} exampleScenario =
  Ok (log_debug workerLine exampleScenario).
Proof.
  apply (message_without_listener_is_discarded exampleBody 0 0
           {| command := RedirectPage; payload := PString "/inbox" |} exampleScenario).
  reflexivity.
Defined.

(** X7.  When the callbacks of a topic's records make no call on the
    messenger, a dispatch of the topic in a well-formed registry returns;
    it has invoked each record once, in order; it leaves the topic with
    its persistent records, in their order, and without its once-only
    records; the other topics keep their records, once-only ones
    included. *)
Theorem dispatch_keeps_persistent_listeners {W : Type}
    (body : Callback -> WorkerMessengerPayload -> Prog W)
    (fuel d : nat) (data : WorkerMessengerMessage) (this : WorkerMessenger W) :
  well_formed (messenger_replies this) ->
  (forall x, x ∈ listenersOf (command data) (messenger_replies this) ->
             detached (body (callback x) (payload data))) ->
  exists this',
    onWorkerMessageReceivedFromPage (applyCallback body (S fuel)) d data this = Ok this' /\
    invocations this' =
      invocations this ++
        calls d (payload data) (listenersOf (command data) (messenger_replies this)) /\
    listenersOf (command data) (messenger_replies this') =
      filter persistent (listenersOf (command data) (messenger_replies this)) /\
    (forall other, other ≠ command data ->
       listenersOf other (messenger_replies this') =
         listenersOf other (messenger_replies this)).
Proof.
  intros Hwf Hd. destruct (dispatch_detached body fuel d data this Hd) as (this' & E & R & I).
  exists this'. split; [exact E |]. split; [exact I |]. rewrite R. split.
  - apply listenersOf_pruned_persistent. exact Hwf.
  - intros other Hne. apply listenersOf_pruned_other. exact Hne.
Qed.

Lemma dispatch_keeps_persistent_listeners_witness :
  exists this',
    onWorkerMessageReceivedFromPage (applyCallback exampleBody 1) 0 exampleMessage
      exampleScenario = Ok this' /\
    listenersOf NotificationDisplayed (messenger_replies this') =
      [ {| ref := 1; callback := 3; onceListenerOnly := false |} ].
Proof.
  pose proof exampleScenario_well_formed as Hwf.
  destruct (dispatch_keeps_persistent_listeners exampleBody 0 0 exampleMessage
              exampleScenario Hwf) as (this' & E & _ & L & _).
  { intros x Hx.
    change (x ∈ [ {| ref := 0; callback := 0; onceListenerOnly := true |};
                  {| ref := 1; callback := 3; onceListenerOnly := false |} ]) in Hx.
    apply elem_of_cons in Hx as [-> | Hx]; [constructor |].
    apply list_elem_of_singleton in Hx as ->. constructor. }
  exists this'. split; [exact E | exact L].
Defined.

(** X8.  Two dispatches of a topic in a row, with callbacks that make no
    call on the messenger, in a well-formed registry: the first invokes
    every record of the topic, the second only the persistent ones; so a
    once-only listener is called with the first payload only and a
    persistent listener with both, all in registration order. *)
Theorem two_dispatches_in_a_row {W : Type}
    (body : Callback -> WorkerMessengerPayload -> Prog W)
    (fuel d : nat) (topic : WorkerMessengerCommand) (p1 p2 : WorkerMessengerPayload)
    (this : WorkerMessenger W) :
  let snapshot := listenersOf topic (messenger_replies this) in
  well_formed (messenger_replies this) ->
  (forall x, x ∈ snapshot -> detached (body (callback x) p1)) ->
  (forall x, x ∈ snapshot -> detached (body (callback x) p2)) ->
  exists this1 this2,
    onWorkerMessageReceivedFromPage (applyCallback body (S fuel)) d
      {| command := topic; payload := p1 |} this = Ok this1 /\
    onWorkerMessageReceivedFromPage (applyCallback body (S fuel)) d
      {| command := topic; payload := p2 |} this1 = Ok this2 /\
    invocations this2 =
      invocations this ++ calls d p1 snapshot ++ calls d p2 (filter persistent snapshot) /\
    listenersOf topic (messenger_replies this2) = filter persistent snapshot.
Proof.
  intros snapshot Hwf Hd1 Hd2.
  destruct (dispatch_detached body fuel d {| command := topic; payload := p1 |} this Hd1)
    as (this1 & E1 & R1 & I1).
  simpl in R1, I1.
  assert (listenersOf topic (messenger_replies this1) = filter persistent snapshot) as L1.
  { rewrite R1. apply listenersOf_pruned_persistent. exact Hwf. }
  assert (well_formed (messenger_replies this1)) as Hwf1.
  { rewrite R1. apply well_formed_pruned. exact Hwf. }
  destruct (dispatch_detached body fuel d {| command := topic; payload := p2 |} this1)
    as (this2 & E2 & R2 & I2).
  { simpl. rewrite L1. intros x Hx. apply Hd2.
    apply list_elem_of_filter in Hx as [_ Hx]. exact Hx. }
  simpl in R2, I2.
  exists this1, this2. split; [exact E1 |]. split; [exact E2 |]. split.
  - rewrite I2, I1, L1, <- app_assoc. reflexivity.
  - rewrite R2, (listenersOf_pruned_persistent _ _ Hwf1), L1.
    apply filter_keeps_all. intros x Hx. apply list_elem_of_filter in Hx as [Hp _]. exact Hp.
Qed.

Lemma two_dispatches_in_a_row_witness :
  exists this1 this2,
    onWorkerMessageReceivedFromPage (applyCallback exampleBody 1) 0
      {| command := NotificationDisplayed; payload := PNumber 1 |} exampleScenario
      = Ok this1 /\
    onWorkerMessageReceivedFromPage (applyCallback exampleBody 1) 0
      {| command := NotificationDisplayed; payload := PNumber 2 |} this1 = Ok this2 /\
    invocations this2 =
      [ {| depth := 0;
           listener := {| ref := 0; callback := 0; onceListenerOnly := true |};
           argument := PNumber 1 |};
        {| depth := 0;
           listener := {| ref := 1; callback := 3; onceListenerOnly := false |};
           argument := PNumber 1 |};
        {| depth := 0;
           listener := {| ref := 1; callback := 3; onceListenerOnly := false |};
           argument := PNumber 2 |} ].
Proof.
  pose proof exampleScenario_well_formed as Hwf.
  assert (forall p x,
            x ∈ listenersOf NotificationDisplayed (messenger_replies exampleScenario) ->
            detached (exampleBody (callback x) p)) as Hd.
  { intros p x Hx.
    change (x ∈ [ {| ref := 0; callback := 0; onceListenerOnly := true |};
                  {| ref := 1; callback := 3; onceListenerOnly := false |} ]) in Hx.
    apply elem_of_cons in Hx as [-> | Hx]; [constructor |].
    apply list_elem_of_singleton in Hx as ->. constructor. }
  destruct (two_dispatches_in_a_row exampleBody 0 0 NotificationDisplayed
              (PNumber 1) (PNumber 2) exampleScenario Hwf (Hd _) (Hd _))
    as (this1 & this2 & E1 & E2 & I & _).
  exists this1, this2. split; [exact E1 |]. split; [exact E2 | exact I].
Defined.

(** X9.  [off] unsubscribes for good: a record that a topic of a
    well-formed registry holds when [off(topic)] or [off()] is called is
    not invoked by anything called on the messenger afterwards, re-entrant
    dispatches included.  (Registering its callback again creates another
    record.) *)
Theorem off_retires_listeners {W : Type}
    (body : Callback -> WorkerMessengerPayload -> Prog W)
    (topic : WorkerMessengerCommand) (r : WorkerMessengerReplyBufferRecord)
    (this : WorkerMessenger W) :
  well_formed (messenger_replies this) ->
  r ∈ listenersOf topic (messenger_replies this) ->
  forall fuel d later this',
    (interp (applyCallback body fuel) d later (off (Some topic) this) = Ok this' ->
     timesInvoked (ref r) this' = timesInvoked (ref r) this) /\
    (interp (applyCallback body fuel) d later (off None this) = Ok this' ->
     timesInvoked (ref r) this' = timesInvoked (ref r) this).
Proof.
  intros Hwf Hr fuel d later this'. split; intros H.
  - destruct (interp_keeps_retired (applyCallback body fuel)
                (applyCallback_keeps_retired body fuel) later d
                (off (Some topic) this) this'
                (well_formed_deleteListenerRecords topic _ Hwf) H) as [_ Hkeep].
    destruct (Hkeep (ref r) (retired_by_deleteListenerRecords _ _ _ Hwf Hr)) as [_ E].
    exact E.
  - destruct (interp_keeps_retired (applyCallback body fuel)
                (applyCallback_keeps_retired body fuel) later d
                (off None this) this'
                (well_formed_deleteAllListenerRecords _) H) as [_ Hkeep].
    destruct (Hkeep (ref r) (retired_by_deleteAllListenerRecords topic _ _ Hwf Hr)) as [_ E].
    exact E.
Qed.

Lemma off_retires_listeners_witness :
  exists this',
    interp (applyCallback exampleBody 2) 0
      (Do (CallOn NotificationDisplayed 0)
         (Do (CallOnWorkerMessageReceivedFromPage exampleMessage) Return))
      (off (Some NotificationDisplayed) exampleUnregistering) = Ok this' /\
    timesInvoked 1 this' = 0 /\
    length (invocations this') = 1.
Proof.
  pose proof exampleUnregistering_well_formed as Hwf.
  eexists. split; [reflexivity |]. split; [| reflexivity].
  refine (proj1 (off_retires_listeners exampleBody NotificationDisplayed
                   {| ref := 1; callback := 0; onceListenerOnly := false |}
                   exampleUnregistering Hwf _ 2 0
                   (Do (CallOn NotificationDisplayed 0)
                      (Do (CallOnWorkerMessageReceivedFromPage exampleMessage) Return))
                   _) _).
  - right. left.
  - reflexivity.
Defined.

(** ** The readiness gate, sending and listening *)

Lemma existsb_controlling env (l : list Observation) :
  existsb (isWorkerControllingPage env) l = true <->
  exists seen, seen ∈ l /\ controlling env seen.
Proof.
  rewrite existsb_exists. unfold controlling. split.
  - intros (seen & Hin & H). exists seen. split; [apply list_elem_of_In; exact Hin | exact H].
  - intros (seen & Hin & H). exists seen. split; [apply list_elem_of_In; exact Hin | exact H].
Qed.

Lemma waitUntilWorkerControlsPage_Fulfilled env now events :
  waitUntilWorkerControlsPage env now events = Fulfilled <->
  exists seen, seen ∈ now :: events /\ controlling env seen.
Proof.
  unfold waitUntilWorkerControlsPage.
  destruct (isWorkerControllingPage env now) eqn:Hnow.
  - split; [| reflexivity]. intros _. exists now. split; [left | exact Hnow].
  - destruct (existsb (isWorkerControllingPage env) events) eqn:Hev.
    + split; [| reflexivity]. intros _.
      apply existsb_controlling in Hev as (seen & Hin & H).
      exists seen. split; [right; exact Hin | exact H].
    + split; [discriminate |]. intros (seen & Hin & H).
      apply elem_of_cons in Hin as [-> | Hin].
      * unfold controlling in H. congruence.
      * assert (existsb (isWorkerControllingPage env) events = true) as E
          by (apply existsb_controlling; eauto).
        congruence.
Qed.

Lemma waitUntilWorkerControlsPage_cases env now events :
  waitUntilWorkerControlsPage env now events = Fulfilled \/
  waitUntilWorkerControlsPage env now events = Pending.
Proof.
  unfold waitUntilWorkerControlsPage.
  destruct (isWorkerControllingPage env now); [left; reflexivity |].
  destruct (existsb (isWorkerControllingPage env) events); [left | right]; reflexivity.
Qed.

(** X10.  [waitUntilWorkerControlsPage] resolves exactly when the first
    check, or the check at one of the later 'activate' / 'controllerchange'
    events, finds the worker controlling the page; otherwise it stays
    pending: it never rejects and has no timeout.  Once it resolves, later
    events do not change that. *)
Theorem waitUntilWorkerControlsPage_opens
    (env : WindowEnvironmentKind) (now : Observation) (events : list Observation) :
  (waitUntilWorkerControlsPage env now events = Fulfilled <->
     exists seen, seen ∈ now :: events /\ controlling env seen) /\
  (waitUntilWorkerControlsPage env now events = Pending <->
     forall seen, seen ∈ now :: events -> ~ controlling env seen) /\
  (forall e, waitUntilWorkerControlsPage env now events ≠ Rejected e) /\
  (forall more,
     waitUntilWorkerControlsPage env now events = Fulfilled ->
     waitUntilWorkerControlsPage env now (events ++ more) = Fulfilled).
Proof.
  pose proof (waitUntilWorkerControlsPage_Fulfilled env now events) as HF.
  pose proof (waitUntilWorkerControlsPage_cases env now events) as Hcases.
  split; [exact HF |]. split; [| split].
  - split.
    + intros HP seen Hin Hc.
      assert (waitUntilWorkerControlsPage env now events = Fulfilled) as E
        by (apply HF; eauto).
      congruence.
    + intros Hnone. destruct Hcases as [E | E]; [| exact E].
      apply HF in E as (seen & Hin & Hc). exfalso. exact (Hnone seen Hin Hc).
  - intros e. destruct Hcases as [E | E]; rewrite E; discriminate.
  - intros more E. apply HF in E as (seen & Hin & Hc).
    apply waitUntilWorkerControlsPage_Fulfilled. exists seen. split; [| exact Hc].
    apply elem_of_cons in Hin as [-> | Hin]; [left | right].
    apply elem_of_app. left. exact Hin.
Qed.

Lemma waitUntilWorkerControlsPage_opens_witness :
  waitUntilWorkerControlsPage Page
    {| active := None; workerState := NotActive |}
    [ {| active := None; workerState := UnknownState |};
      {| active := None; workerState := WorkerB |} ] = Fulfilled /\
  waitUntilWorkerControlsPage Page
    {| active := None; workerState := NotActive |}
    ([ {| active := None; workerState := UnknownState |};
       {| active := None; workerState := WorkerB |} ] ++
     [ {| active := None; workerState := NotActive |} ]) = Fulfilled.
Proof.
  destruct (waitUntilWorkerControlsPage_opens Page
              {| active := None; workerState := NotActive |}
              [ {| active := None; workerState := UnknownState |};
                {| active := None; workerState := WorkerB |} ]) as (_ & _ & _ & Hmore).
  split; [reflexivity |]. apply Hmore. reflexivity.
Defined.

(** X11.  Outside the worker role [unicast] ignores the window client and
    always goes through an [await].  When the readiness gate never opens,
    it stays pending and posts nothing.  When the gate opens (at its first
    check or at a later 'controllerchange' event) and
    [navigator.serviceWorker.controller] is a worker, it posts
    [{command, payload}] once, to the controller, and resolves; when the
    gate opens and the controller is [null], reading [postMessage] of it
    raises a [TypeError]: the promise rejects and nothing is posted.  It
    rejects in no other case. *)
Theorem unicast_from_page
    (env : WindowEnvironmentKind) (first now : Observation) (events : list Observation)
    (controller : option ServiceWorkerObject)
    (topic : WorkerMessengerCommand) (value : WorkerMessengerPayload)
    (windowClient : option WindowClient) :
  env ≠ ServiceWorker ->
  let sent := unicast env first now events controller topic value windowClient in
  let opens := exists seen, seen ∈ now :: events /\ controlling env seen in
  suspended sent = true /\
  (~ opens -> promise sent = Pending /\ posted sent = []) /\
  (opens -> is_Some controller ->
   promise sent = Fulfilled /\
   posted sent = [(ToController, {| command := topic; payload := value |})]) /\
  (opens -> controller = None ->
   promise sent = Rejected TypeError /\ posted sent = []) /\
  (forall e, promise sent = Rejected e -> e = TypeError /\ opens /\ controller = None).
Proof.
  intros Hne sent opens. subst sent opens. unfold unicast.
  destruct (decide (env = ServiceWorker)) as [E | _]; [contradiction |].
  pose proof (waitUntilWorkerControlsPage_Fulfilled env now events) as HF.
  destruct (waitUntilWorkerControlsPage_cases env now events) as [Hwait | Hwait];
    rewrite Hwait in *.
  - assert (exists seen, seen ∈ now :: events /\ controlling env seen) as Hopens
      by (apply HF; reflexivity).
    destruct controller as [w |]; simpl.
    + split; [reflexivity |]. split; [intros Hno; contradiction |].
      split; [auto |]. split; [discriminate |]. discriminate.
    + split; [reflexivity |]. split; [intros Hno; contradiction |].
      split; [intros _ [w Hw]; discriminate |]. split; [auto |].
      intros e [= <-]. auto.
  - assert (~ exists seen, seen ∈ now :: events /\ controlling env seen) as Hno
      by (intros Hx; apply HF in Hx; discriminate).
    simpl. split; [reflexivity |]. split; [auto |].
    split; [intros Hx; contradiction |]. split; [intros Hx; contradiction |]. discriminate.
Qed.

Lemma unicast_from_page_witness :
  Page ≠ ServiceWorker /\
  posted (unicast Page
            {| active := None; workerState := NotActive |}
            {| active := None; workerState := NotActive |}
            [ {| active := None; workerState := WorkerA |} ]
            (Some {| scriptURL := "/OneSignalSDKWorker.js" |})
            Subscribe PUndefined (Some {| url := "https://example.com/" |}))
  = [(ToController, {| command := Subscribe; payload := PUndefined |})] /\
  promise (unicast Page
             {| active := None; workerState := NotActive |}
             {| active := None; workerState := NotActive |}
             [ {| active := None; workerState := WorkerA |} ]
             None
             Subscribe PUndefined None) = Rejected TypeError /\
  promise (unicast Page
             {| active := None; workerState := NotActive |}
             {| active := None; workerState := NotActive |}
             []
             (Some {| scriptURL := "/OneSignalSDKWorker.js" |})
             Subscribe PUndefined None) = Pending.
Proof.
  assert (exists seen,
            seen ∈ [ {| active := None; workerState := NotActive |};
                     {| active := None; workerState := WorkerA |} ] /\
            controlling Page seen) as Hopens.
  { exists {| active := None; workerState := WorkerA |}.
    split; [right; left | reflexivity]. }
  split; [discriminate |]. split; [| split].
  - destruct (unicast_from_page Page
                {| active := None; workerState := NotActive |}
                {| active := None; workerState := NotActive |}
                [ {| active := None; workerState := WorkerA |} ]
                (Some {| scriptURL := "/OneSignalSDKWorker.js" |})
                Subscribe PUndefined (Some {| url := "https://example.com/" |})
                ltac:(discriminate)) as (_ & _ & Hposts & _).
    apply Hposts; [exact Hopens | eexists; reflexivity].
  - destruct (unicast_from_page Page
                {| active := None; workerState := NotActive |}
                {| active := None; workerState := NotActive |}
                [ {| active := None; workerState := WorkerA |} ]
                None Subscribe PUndefined None
                ltac:(discriminate)) as (_ & _ & _ & Hrejects & _).
    apply Hrejects; [exact Hopens | reflexivity].
  - destruct (unicast_from_page Page
                {| active := None; workerState := NotActive |}
                {| active := None; workerState := NotActive |}
                []
                (Some {| scriptURL := "/OneSignalSDKWorker.js" |})
                Subscribe PUndefined None
                ltac:(discriminate)) as (_ & Hpending & _).
    apply Hpending.
    intros (seen & Hin & Hc). apply list_elem_of_singleton in Hin as ->. discriminate.
Defined.

(** X12.  In the worker role [broadcast] posts to the window clients, in
    the order [matchAll] gave them, what [unicast] to each of them posts,
    and logs what those calls log; it resolves, also when there is no
    client. *)
Theorem broadcast_is_unicast_to_each_client
    (first now : Observation) (events : list Observation)
    (controller : option ServiceWorkerObject)
    (matchAll : list WindowClient)
    (topic : WorkerMessengerCommand) (value : WorkerMessengerPayload) :
  promise (broadcast ServiceWorker matchAll topic value) = Fulfilled /\
  posted (broadcast ServiceWorker matchAll topic value) =
    concat ((fun client =>
               posted (unicast ServiceWorker first now events controller topic value
                         (Some client)))
            <$> matchAll) /\
  length (posted (broadcast ServiceWorker matchAll topic value)) = length matchAll /\
  length (debugged (broadcast ServiceWorker matchAll topic value)) = length matchAll.
Proof.
  unfold broadcast, unicast. simpl. split; [reflexivity |]. split; [| split].
  - induction matchAll as [| client rest IH]; [reflexivity |].
    simpl. f_equal. exact IH.
  - apply length_fmap.
  - apply length_fmap.
Qed.

(** X13.  [listen] installs at most one hook.  It installs the worker's
    handler exactly when service workers are supported and the role is the
    worker's, and then at once.  It installs the page's handler exactly when
    service workers are supported, the role is not the worker's, and
    either [listenIfPageUncontrolled] is true or the readiness gate opens;
    with [listenIfPageUncontrolled] true it does so at once, otherwise
    only after an [await]. *)
Theorem listen_installs
    (supportsServiceWorkers : bool) (env : WindowEnvironmentKind) (origin : string)
    (first now : Observation) (events : list Observation)
    (listenIfPageUncontrolled : option bool) :
  let l := listen supportsServiceWorkers env origin first now events
             listenIfPageUncontrolled in
  (hooks l = [WorkerHook] \/ hooks l = [PageHook] \/ hooks l = []) /\
  (hooks l = [WorkerHook] <-> supportsServiceWorkers = true /\ env = ServiceWorker) /\
  (hooks l = [PageHook] <->
     supportsServiceWorkers = true /\ env ≠ ServiceWorker /\
     (listenIfPageUncontrolled = Some true \/
      exists seen, seen ∈ now :: events /\ controlling env seen)) /\
  (hooks l = [WorkerHook] -> deferred l = false) /\
  (hooks l = [PageHook] ->
     (deferred l = false <-> listenIfPageUncontrolled = Some true)).
Proof.
  intros l. subst l. unfold listen, listenForPage.
  pose proof (waitUntilWorkerControlsPage_Fulfilled env now events) as HF.
  destruct supportsServiceWorkers; simpl;
    [| intuition (try discriminate; try congruence)].
  destruct (decide (env = ServiceWorker)) as [E | N]; simpl;
    [intuition (try discriminate; try congruence) |].
  destruct listenIfPageUncontrolled as [[|] |]; simpl;
    [intuition (try discriminate; try congruence) | |].
  - destruct (waitUntilWorkerControlsPage env now events) as [| e |] eqn:Hwait; simpl.
    + assert (exists seen, seen ∈ now :: events /\ controlling env seen) as Hex
        by (apply HF; reflexivity).
      clear HF. intuition (try discriminate; try congruence).
    + assert (~ exists seen, seen ∈ now :: events /\ controlling env seen) as Hno
        by (intros Hx; apply HF in Hx; discriminate).
      clear HF. intuition (try discriminate; try congruence).
    + assert (~ exists seen, seen ∈ now :: events /\ controlling env seen) as Hno
        by (intros Hx; apply HF in Hx; discriminate).
      clear HF. intuition (try discriminate; try congruence).
  - destruct (waitUntilWorkerControlsPage env now events) as [| e |] eqn:Hwait; simpl.
    + assert (exists seen, seen ∈ now :: events /\ controlling env seen) as Hex
        by (apply HF; reflexivity).
      clear HF. intuition (try discriminate; try congruence).
    + assert (~ exists seen, seen ∈ now :: events /\ controlling env seen) as Hno
        by (intros Hx; apply HF in Hx; discriminate).
      clear HF. intuition (try discriminate; try congruence).
    + assert (~ exists seen, seen ∈ now :: events /\ controlling env seen) as Hno
        by (intros Hx; apply HF in Hx; discriminate).
      clear HF. intuition (try discriminate; try congruence).
Qed.

Lemma listen_installs_witness :
  hooks (listen true Page "https://example.com"
           {| active := None; workerState := NotActive |}
           {| active := None; workerState := NotActive |}
           [] (Some true)) = [PageHook] /\
  deferred (listen true Page "https://example.com"
              {| active := None; workerState := NotActive |}
              {| active := None; workerState := NotActive |}
              [] (Some true)) = false /\
  hooks (listen true Page "https://example.com"
           {| active := None; workerState := NotActive |}
           {| active := None; workerState := NotActive |}
           [ {| active := None; workerState := WorkerA |} ] None) = [PageHook].
Proof.
  destruct (listen_installs true Page "https://example.com"
              {| active := None; workerState := NotActive |}
              {| active := None; workerState := NotActive |}
              [] (Some true)) as (_ & _ & Hpage & _ & Hat_once).
  destruct (listen_installs true Page "https://example.com"
              {| active := None; workerState := NotActive |}
              {| active := None; workerState := NotActive |}
              [ {| active := None; workerState := WorkerA |} ] None)
    as (_ & _ & Hgate & _).
  assert (hooks (listen true Page "https://example.com"
                   {| active := None; workerState := NotActive |}
                   {| active := None; workerState := NotActive |}
                   [] (Some true)) = [PageHook]) as H.
  { apply Hpage. split; [reflexivity |]. split; [discriminate |]. left. reflexivity. }
  split; [exact H |]. split.
  - apply (Hat_once H). reflexivity.
  - apply Hgate. split; [reflexivity |]. split; [discriminate |]. right.
    exists {| active := None; workerState := WorkerA |}.
    split; [right; left | reflexivity].
Defined.

(** ** A callback that throws *)

Lemma callLoop_app {W : Type} apply d l1 l2 p : forall (this this1 : WorkerMessenger W),
  callLoop apply d l1 p this = Ok this1 ->
  callLoop apply d (l1 ++ l2) p this = callLoop apply d l2 p this1.
Proof.
  induction l1 as [| x l1 IH]; intros this this1 H.
  - injection H as <-. reflexivity.
  - apply callLoop_cons_Ok in H as (this0 & Happ & Hrest).
    simpl. rewrite Happ. apply IH. exact Hrest.
Qed.

Lemma exampleThrowing_well_formed : well_formed (messenger_replies exampleThrowing).
Proof.
  refine (proj1 (interp_keeps_retired (applyCallback exampleThrowingBody 0)
                   (applyCallback_keeps_retired exampleThrowingBody 0)
                   (Do (CallOnce NotificationDisplayed 0)
                      (Do (CallOn NotificationDisplayed 5)
                         (Do (CallOnce NotificationDisplayed 6) Return)))
                   0 (newWorkerMessenger tt) exampleThrowing well_formed_new _)).
  reflexivity.
Qed.

(** X14.  A callback that throws ends the dispatch: when the callbacks of
    the records before it make no call on the messenger, the handler's
    promise rejects with what the callback threw; the records up to and
    including the throwing one were invoked, in order, and the records
    after it were not; the once-only records of the topic are gone all the
    same, those after the throwing record included, which were never
    called. *)
Theorem throwing_callback_ends_the_dispatch {W : Type}
    (body : Callback -> WorkerMessengerPayload -> Prog W)
    (fuel d : nat) (data : WorkerMessengerMessage) (this : WorkerMessenger W)
    (before after : list WorkerMessengerReplyBufferRecord)
    (x : WorkerMessengerReplyBufferRecord) (e : Error) :
  well_formed (messenger_replies this) ->
  listenersOf (command data) (messenger_replies this) = before ++ x :: after ->
  (forall y, y ∈ before -> detached (body (callback y) (payload data))) ->
  body (callback x) (payload data) = Raise e ->
  exists this',
    onWorkerMessageReceivedFromPage (applyCallback body (S fuel)) d data this
      = Raised e this' /\
    invocations this' = invocations this ++ calls d (payload data) (before ++ [x]) /\
    listenersOf (command data) (messenger_replies this') =
      filter persistent (before ++ x :: after) /\
    (forall other, other ≠ command data ->
       listenersOf other (messenger_replies this') =
         listenersOf other (messenger_replies this)).
Proof.
  intros Hwf Hlist Hbefore Hraise.
  rewrite onWorkerMessageReceivedFromPage_callLoop, Hlist.
  destruct (callLoop_detached body fuel before d (payload data)
              (dispatched workerLine (command data) this) Hbefore)
    as (this1 & E1 & R1 & I1).
  rewrite (callLoop_app _ _ _ _ _ _ _ E1).
  cbn [callLoop applyCallback]. rewrite Hraise. cbn [interp].
  eexists. split; [reflexivity |]. simpl. split; [| split].
  - rewrite I1. simpl. unfold calls. rewrite fmap_app, <- app_assoc. reflexivity.
  - rewrite R1. simpl. rewrite (listenersOf_pruned_persistent _ _ Hwf), Hlist. reflexivity.
  - intros other Hne. rewrite R1. simpl. apply listenersOf_pruned_other. exact Hne.
Qed.

Lemma throwing_callback_ends_the_dispatch_witness :
  exists this',
    onWorkerMessageReceivedFromPage (applyCallback exampleThrowingBody 1) 0
      exampleMessage exampleThrowing = Raised (Thrown "boom") this' /\
    invocations this' =
      [ {| depth := 0;
           listener := {| ref := 0; callback := 0; onceListenerOnly := true |};
           argument := PNumber 1 |};
        {| depth := 0;
           listener := {| ref := 1; callback := 5; onceListenerOnly := false |};
           argument := PNumber 1 |} ] /\
    listenersOf NotificationDisplayed (messenger_replies this') =
      [ {| ref := 1; callback := 5; onceListenerOnly := false |} ].
Proof.
  destruct (throwing_callback_ends_the_dispatch exampleThrowingBody 0 0 exampleMessage
              exampleThrowing
              [ {| ref := 0; callback := 0; onceListenerOnly := true |} ]
              [ {| ref := 2; callback := 6; onceListenerOnly := true |} ]
              {| ref := 1; callback := 5; onceListenerOnly := false |}
              (Thrown "boom") exampleThrowing_well_formed eq_refl)
    as (this' & E & I & L & _).
  - intros y Hy. apply list_elem_of_singleton in Hy as ->. constructor.
  - reflexivity.
  - exists this'. split; [exact E |]. split; [exact I | exact L].
Defined.
